(** * SerwerMLS: a licence-lease server and its client

    A shallow embedding of [Server.py] and [Client.py].  The Python code is
    translated function by function; the library calls it relies on
    ([hashlib.md5], [datetime.isoformat], [datetime.fromisoformat],
    [sched.scheduler], [json]) are modelled in their own modules below.

    Conventions of the model:
    - a Python [str] is a Rocq [string], read as the UTF-8 bytes of the text,
      so [s.encode('utf-8')] is the list of its bytes;
    - a naive [datetime] is an integer number of microseconds counted from
      1970-01-01T00:00:00; a [timedelta] is a number of microseconds; the
      arithmetic of the server raises [OverflowError] outside the range of
      the library, as [timedelta] and [datetime.__add__] do;
    - the float timestamps and the parser of the datetime library are
      parameters of the client's [get_expiry_time] and [is_valid]; the
      examples and the properties of the request threads use an exact
      instance, where a timestamp is an integer number of microseconds
      since the epoch;
    - a raised exception is an explicit result, carrying the state reached
      when it was raised;
    - the text on the socket is not modelled: what a handler or a request
      thread receives is an input of the model, a decoded document or a
      failure. *)

From Stdlib Require Import ZArith Lia Ascii String List Bool.
From stdpp Require Import base option list strings gmap fin_maps.

Local Open Scope string_scope.
Local Open Scope Z_scope.

(** ** hashlib.md5 (RFC 1321) *)

Module MD5.

Definition wmask : Z := 0xffffffff.

(** 32-bit words are [Z] in [0, 2^32); every operation wraps. *)
Definition wadd (x y : Z) : Z := Z.land (x + y) wmask.
Definition wnot (x : Z) : Z := Z.lxor x wmask.
Definition rotl (x : Z) (c : Z) : Z :=
  Z.land (Z.lor (Z.shiftl x c) (Z.shiftr x (32 - c))) wmask.

Definition S_table : list Z :=
  [ 7; 12; 17; 22; 7; 12; 17; 22; 7; 12; 17; 22; 7; 12; 17; 22;
    5;  9; 14; 20; 5;  9; 14; 20; 5;  9; 14; 20; 5;  9; 14; 20;
    4; 11; 16; 23; 4; 11; 16; 23; 4; 11; 16; 23; 4; 11; 16; 23;
    6; 10; 15; 21; 6; 10; 15; 21; 6; 10; 15; 21; 6; 10; 15; 21 ].

(** [K_table[i] = floor(2^32 * |sin (i + 1)|)]. *)
Definition K_table : list Z :=
  [ 0xd76aa478; 0xe8c7b756; 0x242070db; 0xc1bdceee; 0xf57c0faf; 0x4787c62a; 0xa8304613; 0xfd469501;
    0x698098d8; 0x8b44f7af; 0xffff5bb1; 0x895cd7be; 0x6b901122; 0xfd987193; 0xa679438e; 0x49b40821;
    0xf61e2562; 0xc040b340; 0x265e5a51; 0xe9b6c7aa; 0xd62f105d; 0x02441453; 0xd8a1e681; 0xe7d3fbc8;
    0x21e1cde6; 0xc33707d6; 0xf4d50d87; 0x455a14ed; 0xa9e3e905; 0xfcefa3f8; 0x676f02d9; 0x8d2a4c8a;
    0xfffa3942; 0x8771f681; 0x6d9d6122; 0xfde5380c; 0xa4beea44; 0x4bdecfa9; 0xf6bb4b60; 0xbebfbc70;
    0x289b7ec6; 0xeaa127fa; 0xd4ef3085; 0x04881d05; 0xd9d4d039; 0xe6db99e5; 0x1fa27cf8; 0xc4ac5665;
    0xf4292244; 0x432aff97; 0xab9423a7; 0xfc93a039; 0x655b59c3; 0x8f0ccc92; 0xffeff47d; 0x85845dd1;
    0x6fa87e4f; 0xfe2ce6e0; 0xa3014314; 0x4e0811a1; 0xf7537e82; 0xbd3af235; 0x2ad7d2bb; 0xeb86d391 ].

Record state := State { sa : Z; sb : Z; sc : Z; sd : Z }.

Definition init : state :=
  State 0x67452301 0xefcdab89 0x98badcfe 0x10325476.

(** Little-endian packing of four bytes into a word, and back. *)
Definition word_of_bytes (bs : list Z) : Z :=
  fold_right (fun b acc => Z.lor b (Z.shiftl acc 8)) 0 bs.

Definition bytes_of_word (w : Z) : list Z :=
  [ Z.land w 0xff; Z.land (Z.shiftr w 8) 0xff;
    Z.land (Z.shiftr w 16) 0xff; Z.land (Z.shiftr w 24) 0xff ].

Fixpoint chunks (n : nat) (size : nat) (l : list Z) : list (list Z) :=
  match n with
  | O => []
  | S n' => firstn size l :: chunks n' size (skipn size l)
  end.

(** The message followed by 0x80, zeros up to 56 mod 64, and the bit
    length on 64 bits, little-endian. *)
Definition padding (len : Z) : list Z :=
  let zeros := (55 - len) mod 64 in
  let bits := Z.land (8 * len) 0xffffffffffffffff in
  0x80 :: repeat 0 (Z.to_nat zeros)
    ++ bytes_of_word (Z.land bits wmask)
    ++ bytes_of_word (Z.shiftr bits 32).

Definition pad (msg : list Z) : list Z :=
  msg ++ padding (Z.of_nat (length msg)).

Definition round (M : list Z) (st : state) (i : nat) : state :=
  let '(State A B C D) := st in
  let iz := Z.of_nat i in
  let '(F, g) :=
    if iz <? 16 then (Z.lor (Z.land B C) (Z.land (wnot B) D), iz)
    else if iz <? 32 then (Z.lor (Z.land D B) (Z.land (wnot D) C), (5 * iz + 1) mod 16)
    else if iz <? 48 then (Z.lxor (Z.lxor B C) D, (3 * iz + 5) mod 16)
    else (Z.lxor C (Z.lor B (wnot D)), (7 * iz) mod 16) in
  let F' := wadd (wadd (wadd F A) (nth i K_table 0)) (nth (Z.to_nat g) M 0) in
  State D (wadd B (rotl F' (nth i S_table 0))) B C.

Definition process (st : state) (block : list Z) : state :=
  let M := map word_of_bytes (chunks 16 4 block) in
  let st' := fold_left (round M) (seq 0 64) st in
  State (wadd (sa st) (sa st')) (wadd (sb st) (sb st'))
        (wadd (sc st) (sc st')) (wadd (sd st) (sd st')).

Definition digest (msg : list Z) : list Z :=
  let padded := pad msg in
  let st := fold_left process (chunks (length padded / 64) 64 padded) init in
  bytes_of_word (sa st) ++ bytes_of_word (sb st)
    ++ bytes_of_word (sc st) ++ bytes_of_word (sd st).

Definition hexdigit (n : Z) : ascii :=
  nth (Z.to_nat n)
      (list_ascii_of_string "0123456789abcdef") "0"%char.

Fixpoint hex (bs : list Z) : string :=
  match bs with
  | [] => EmptyString
  | b :: bs' => String (hexdigit (Z.shiftr b 4))
                       (String (hexdigit (Z.land b 0xf)) (hex bs'))
  end.

Definition hexdigest (msg : list Z) : string := hex (digest msg).

End MD5.

(** [s.encode('utf-8')]: the bytes of the text. *)
Definition encode_utf8 (s : string) : list Z :=
  map (fun c => Z.of_N (N_of_ascii c)) (list_ascii_of_string s).

(** ** datetime: naive timestamps, [isoformat] and [fromisoformat] *)

Module DateTime.

(** A naive [datetime] is its number of microseconds since
    1970-01-01T00:00:00, a [timedelta] a number of microseconds. *)
Definition datetime : Type := Z.

Definition us_per_second : Z := 1000000.
Definition us_per_day : Z := 86400 * us_per_second.

(** [timedelta(seconds=s)] *)
Definition timedelta_seconds (s : Z) : Z := s * us_per_second.

(** Proleptic Gregorian calendar: day number of a civil date and back. *)
Definition days_from_civil (y m d : Z) : Z :=
  let y' := if m <=? 2 then y - 1 else y in
  let era := y' / 400 in
  let yoe := y' - era * 400 in
  let mp := if 2 <? m then m - 3 else m + 9 in
  let doy := (153 * mp + 2) / 5 + d - 1 in
  let doe := yoe * 365 + yoe / 4 - yoe / 100 + doy in
  era * 146097 + doe - 719468.

Definition civil_from_days (z : Z) : Z * Z * Z :=
  let z' := z + 719468 in
  let era := z' / 146097 in
  let doe := z' - era * 146097 in
  let yoe := (doe - doe / 1460 + doe / 36524 - doe / 146096) / 365 in
  let doy := doe - (365 * yoe + yoe / 4 - yoe / 100) in
  let mp := (5 * doy + 2) / 153 in
  let d := doy - (153 * mp + 2) / 5 + 1 in
  let m := if mp <? 10 then mp + 3 else mp - 9 in
  let y := yoe + era * 400 in
  (if m <=? 2 then y + 1 else y, m, d).

Definition is_leap (y : Z) : bool :=
  (y mod 4 =? 0) && (negb (y mod 100 =? 0) || (y mod 400 =? 0)).

Definition days_in_month (y m : Z) : Z :=
  if m =? 2 then (if is_leap y then 29 else 28)
  else if (m =? 4) || (m =? 6) || (m =? 9) || (m =? 11) then 30
  else 31.

(** [datetime(y, m, d, hh, mm, ss, us)] *)
Definition make (y m d hh mm ss us : Z) : datetime :=
  days_from_civil y m d * us_per_day
  + ((hh * 60 + mm) * 60 + ss) * us_per_second + us.

Definition digit_char (d : Z) : ascii := ascii_of_N (Z.to_N (48 + d)).

(** [n] in decimal on exactly [width] digits, zero-padded. *)
Fixpoint zfill (width : nat) (n : Z) : list ascii :=
  match width with
  | O => []
  | S w => zfill w (n / 10) ++ [digit_char (n mod 10)]
  end.

(** [dt.isoformat()] of a naive datetime: the fraction is printed only
    when the microsecond field is not zero. *)
Definition isoformat (dt : datetime) : string :=
  let '(y, m, d) := civil_from_days (dt / us_per_day) in
  let r := dt mod us_per_day in
  let us := r mod us_per_second in
  let secs := r / us_per_second in
  string_of_list_ascii
    (zfill 4 y ++ ["-"%char] ++ zfill 2 m ++ ["-"%char] ++ zfill 2 d
     ++ ["T"%char] ++ zfill 2 (secs / 3600) ++ [":"%char]
     ++ zfill 2 (secs / 60 mod 60) ++ [":"%char] ++ zfill 2 (secs mod 60)
     ++ (if us =? 0 then [] else "."%char :: zfill 6 us)).

Definition digit_val (c : ascii) : option Z :=
  let n := Z.of_N (N_of_ascii c) in
  if (48 <=? n) && (n <=? 57) then Some (n - 48) else None.

(** Reads exactly [n] decimal digits. *)
Fixpoint parse_digits (n : nat) (acc : Z) (s : list ascii) : option (Z * list ascii) :=
  match n with
  | O => Some (acc, s)
  | S n' =>
      match s with
      | [] => None
      | c :: s' =>
          match digit_val c with
          | Some d => parse_digits n' (10 * acc + d) s'
          | None => None
          end
      end
  end.

Definition expect (c : ascii) (s : list ascii) : option (list ascii) :=
  match s with
  | c' :: s' => if Ascii.eqb c c' then Some s' else None
  | [] => None
  end.

(** The fraction of a second: at least one digit, the first six are
    significant, further digits are dropped. *)
Fixpoint parse_fraction (scale : nat) (acc : Z) (s : list ascii) : option Z :=
  match s with
  | [] => Some (acc * 10 ^ Z.of_nat scale)
  | c :: s' =>
      match digit_val c with
      | None => None
      | Some d =>
          match scale with
          | O => parse_fraction O acc s'
          | S k => parse_fraction k (10 * acc + d) s'
          end
      end
  end.

(** [HH], [HH:MM], [HH:MM:SS] or [HH:MM:SS.f...], as microseconds into
    the day. *)
Definition parse_time (s : list ascii) : option Z :=
  '(hh, s1) ← parse_digits 2 0 s;
  if negb (hh <? 24) then None else
  match s1 with
  | [] => Some (hh * 3600 * us_per_second)
  | _ =>
    s2 ← expect ":"%char s1;
    '(mm, s3) ← parse_digits 2 0 s2;
    if negb (mm <? 60) then None else
    match s3 with
    | [] => Some ((hh * 60 + mm) * 60 * us_per_second)
    | _ =>
      s4 ← expect ":"%char s3;
      '(ss, s5) ← parse_digits 2 0 s4;
      if negb (ss <? 60) then None else
      let whole := ((hh * 60 + mm) * 60 + ss) * us_per_second in
      match s5 with
      | [] => Some whole
      | c :: frac =>
          if (Ascii.eqb c "."%char || Ascii.eqb c ","%char)
             && negb (bool_decide (frac = []))
          then us ← parse_fraction 6 0 frac; Some (whole + us)
          else None
      end
    end
  end.

(** [datetime.fromisoformat(s)] (CPython 3.11) on the extended calendar
    form without UTC offset: [YYYY-MM-DD], optionally followed by one
    separator character and a time.  [None] stands for [ValueError].
    The basic form, week dates and strings with a UTC offset are not
    modelled. *)
Definition fromisoformat (s : string) : option datetime :=
  '(y, s1) ← parse_digits 4 0 (list_ascii_of_string s);
  s2 ← expect "-"%char s1;
  '(m, s3) ← parse_digits 2 0 s2;
  s4 ← expect "-"%char s3;
  '(d, s5) ← parse_digits 2 0 s4;
  if negb ((1 <=? y) && (1 <=? m) && (m <=? 12)
           && (1 <=? d) && (d <=? days_in_month y m)) then None else
  let day := days_from_civil y m d * us_per_day in
  match s5 with
  | [] => Some day
  | _ :: t => us ← parse_time t; Some (day + us)
  end.

End DateTime.

(** ** json documents

    The value [json.loads] returns and [json.dumps] takes.  The text on the
    socket is not modelled: a message is the document itself, so the text
    layer is taken to be lossless. *)

#[local] Unset Elimination Schemes.

Inductive json : Type :=
| JNull
| JBool (b : bool)
| JInt (n : Z)
| JStr (s : string)
| JList (l : list json)
| JDict (d : list (string * json)).

#[local] Set Elimination Schemes.

(** Python truth value of a decoded document. *)
Definition truthy (j : json) : bool :=
  match j with
  | JNull => false
  | JBool b => b
  | JInt n => negb (n =? 0)
  | JStr s => negb (String.eqb s EmptyString)
  | JList l => match l with [] => false | _ => true end
  | JDict d => match d with [] => false | _ => true end
  end.

(** [j == s] for a Python string [s]. *)
Definition json_eq_str (j : json) (s : string) : bool :=
  match j with
  | JStr s' => String.eqb s' s
  | _ => false
  end.

Definition json_of_option_str (o : option string) : json :=
  match o with
  | Some s => JStr s
  | None => JNull
  end.

(** [d.get(k)] on the items of a dict, whose keys are distinct. *)
Fixpoint dict_get (k : string) (d : list (string * json)) : option json :=
  match d with
  | [] => None
  | (k', v) :: d' => if String.eqb k k' then Some v else dict_get k d'
  end.

(** ** Exceptions *)

Inductive exn : Type :=
  TypeError | ValueError | AttributeError | OverflowError | OSError.

Inductive result (A : Type) : Type :=
| Return (a : A)
| Raise (e : exn).

Arguments Return {A} a.
Arguments Raise {A} e.

(** ** datetime arithmetic within the range of the library *)

(** [datetime.min] and [datetime.max] *)
Definition datetime_min : DateTime.datetime := DateTime.make 1 1 1 0 0 0 0.
Definition datetime_max : DateTime.datetime := DateTime.make 9999 12 31 23 59 59 999999.

(** [timedelta(seconds=s)] for an integer [s]: the days of the normalised
    value must not exceed 999999999 in magnitude. *)
Definition timedelta (seconds : Z) : result Z :=
  let days := seconds / 86400 in
  if (-999999999 <=? days) && (days <=? 999999999)
  then Return (DateTime.timedelta_seconds seconds)
  else Raise OverflowError.

(** [dt + delta]: the sum must be a date of the years 1 to 9999. *)
Definition datetime_add (dt : DateTime.datetime) (delta : Z) : result DateTime.datetime :=
  let sum := dt + delta in
  if (datetime_min <=? sum) && (sum <=? datetime_max)
  then Return sum
  else Raise OverflowError.

(** [now + timedelta(seconds=s)] *)
Definition add_seconds (now : DateTime.datetime) (seconds : Z) : result DateTime.datetime :=
  match timedelta seconds with
  | Return delta => datetime_add now delta
  | Raise e => Raise e
  end.

(** ** The strict UTF-8 decoder

    [utf8_valid data] tells whether [data.decode()] returns: no overlong
    form, no surrogate, nothing above U+10FFFF, no truncated sequence. *)

Definition in_byte_range (lo hi b : Z) : bool := (lo <=? b) && (b <=? hi).

Fixpoint utf8_valid (data : list Z) : bool :=
  match data with
  | [] => true
  | b0 :: r0 =>
      if in_byte_range 0 0x7F b0 then utf8_valid r0
      else
        match r0 with
        | [] => false
        | b1 :: r1 =>
            if in_byte_range 0xC2 0xDF b0
            then in_byte_range 0x80 0xBF b1 && utf8_valid r1
            else
              match r1 with
              | [] => false
              | b2 :: r2 =>
                  if b0 =? 0xE0
                  then in_byte_range 0xA0 0xBF b1 && in_byte_range 0x80 0xBF b2
                       && utf8_valid r2
                  else if in_byte_range 0xE1 0xEC b0 || in_byte_range 0xEE 0xEF b0
                  then in_byte_range 0x80 0xBF b1 && in_byte_range 0x80 0xBF b2
                       && utf8_valid r2
                  else if b0 =? 0xED
                  then in_byte_range 0x80 0x9F b1 && in_byte_range 0x80 0xBF b2
                       && utf8_valid r2
                  else
                    match r2 with
                    | [] => false
                    | b3 :: r3 =>
                        if b0 =? 0xF0
                        then in_byte_range 0x90 0xBF b1 && in_byte_range 0x80 0xBF b2
                             && in_byte_range 0x80 0xBF b3 && utf8_valid r3
                        else if in_byte_range 0xF1 0xF3 b0
                        then in_byte_range 0x80 0xBF b1 && in_byte_range 0x80 0xBF b2
                             && in_byte_range 0x80 0xBF b3 && utf8_valid r3
                        else if b0 =? 0xF4
                        then in_byte_range 0x80 0x8F b1 && in_byte_range 0x80 0xBF b2
                             && in_byte_range 0x80 0xBF b3 && utf8_valid r3
                        else false
                    end
              end
        end
  end.

(** ** sched.scheduler

    The queue of a [sched.scheduler] is modelled by the list of the events
    entered and not cancelled.  The library keeps them in a heap ordered
    by due time and priority; the model does not keep that order, and its
    list is to be read as a multiset.  Neither file ever calls
    [scheduler.run()], so no event is ever taken off the queue to be
    executed. *)

Module Sched.

(** The only callable ever scheduled is the bound method
    [request_license_token]. *)
Inductive action : Type := RequestLicenseToken.

Record Event := mkEvent { delay : Z; priority : Z; act : action }.

#[global] Instance action_eq_dec : EqDecision action.
Proof. solve_decision. Defined.

#[global] Instance Event_eq_dec : EqDecision Event.
Proof. solve_decision. Defined.

Definition scheduler : Type := list Event.

(** [scheduler.enter(delay, priority, action)] *)
Definition enter (q : scheduler) (delay priority : Z) (a : action) : scheduler :=
  app q [mkEvent delay priority a].

Fixpoint remove (ev : Event) (q : scheduler) : option scheduler :=
  match q with
  | [] => None
  | e :: q' => if bool_decide (e = ev) then Some q' else cons e <$> remove ev q'
  end.

(** [scheduler.cancel(event)], called on a list of arguments: the method takes exactly one positional
    argument, the event; [list.remove] raises [ValueError] when the event
    is not queued. *)
Definition cancel (q : scheduler) (args : list Event) : result scheduler :=
  match args with
  | [ev] =>
      match remove ev q with
      | Some q' => Return q'
      | None => Raise ValueError
      end
  | _ => Raise TypeError
  end.

End Sched.

(** ** Server.py *)

Module Server.

Module Response.

Record t := mk {
  license_user_name : string;
  license_valid : bool;
  description : string;
  expired : option string
}.

(** [Response.__init__] *)
Definition init (license_user_name : string) (license_valid : bool)
    (description : string) (expired : option DateTime.datetime) : t :=
  mk license_user_name license_valid description
     (DateTime.isoformat <$> expired).

Definition to_dict (r : t) : json :=
  JDict [ ("license_user_name", JStr (license_user_name r));
          ("license_valid", JBool (license_valid r));
          ("description", JStr (description r));
          ("expired", json_of_option_str (expired r)) ].

End Response.

Module Request.

Record t := mk {
  license_user_name : string;
  license_key : string
}.

End Request.

Module LicenseInfo.

Record t := mk {
  license_user_name : string;
  validation_time : Z;
  expiry_time : option DateTime.datetime;
  is_used : bool
}.

(** [LicenseInfo(license_user_name=..., validation_time=...)]: the
    other two fields take their defaults. *)
Definition init (license_user_name : string) (validation_time : Z) : t :=
  mk license_user_name validation_time None false.

End LicenseInfo.

(** [LicenseServer.load_licenses]: one roster item is the pair of the
    optional keys [LicenceUserName] and [ValidationTime]; an absent key
    takes the default of [item.get]. *)
Definition load_licenses (payload : list (option string * option Z))
    : gmap string LicenseInfo.t :=
  fold_left
    (fun licenses item =>
       let license_user_name := default EmptyString (fst item) in
       let validation_time := default 0 (snd item) in
       <[license_user_name := LicenseInfo.init license_user_name validation_time]> licenses)
    payload ∅.

(** [handle_client], the handler that [LicenseServer.run] submits to its
    pool.  [data] is what [recv] returns.  On empty data the handler
    returns at once; [data.decode()] in the [print] raises on bytes that
    are not UTF-8, and the [except] clause then sends nothing; otherwise
    the fixed reply is sent.  The licence table is not consulted. *)
Definition handle_client (data : list Z) : list json :=
  match data with
  | [] => []
  | _ :: _ =>
      if utf8_valid data
      then [ JDict [ ("license_user_name", JStr "Server");
                     ("license_valid", JBool false);
                     ("description", JStr "Connection with server has been closed.");
                     ("expired", JNull) ] ]
      else []
  end.

(** One pass of the loop of [LicenseServer.schedule_license_expiry_check]. *)
Definition expiry_check_one (now : DateTime.datetime) (license_t : LicenseInfo.t)
    : LicenseInfo.t :=
  match LicenseInfo.expiry_time license_t with
  | Some expiry_time =>
      if (expiry_time <? now) && LicenseInfo.is_used license_t
      then LicenseInfo.mk (LicenseInfo.license_user_name license_t)
                          (LicenseInfo.validation_time license_t)
                          (LicenseInfo.expiry_time license_t) false
      else license_t
  | None => license_t
  end.

Definition schedule_license_expiry_check (licenses : gmap string LicenseInfo.t)
    (now : DateTime.datetime) : gmap string LicenseInfo.t :=
  expiry_check_one now <$> licenses.

Definition calculate_expiry_date (validation_time : Z) (now : DateTime.datetime)
    : result DateTime.datetime :=
  add_seconds now validation_time.

(** [ClientHandler.generate_key] *)
Definition generate_key (username : string) : string :=
  MD5.hexdigest (encode_utf8 username).

(** [ClientHandler.handle_request].  [now_check] is the clock read in the
    condition of line 211 and [now_issue] the one on line 213.  The result
    is the licence table after the call and the response handed to
    [sendall] (as [to_dict]), or the exception raised, in which case
    nothing is sent.  On the issue path the flag is set on line 212, before
    the sum of line 213 is computed: when that sum raises, the record is
    left in use with the expiry it had. *)
Definition handle_request (licenses : gmap string LicenseInfo.t)
    (request : Request.t) (now_check now_issue : DateTime.datetime)
    : gmap string LicenseInfo.t * result Response.t :=
  let name := Request.license_user_name request in
  match licenses !! name with
  | None => (licenses, Return (Response.init name false "Token not found" None))
  | Some license_info =>
      let generated_key := generate_key name in
      if negb (String.eqb generated_key (Request.license_key request))
      then (licenses, Return (Response.init name false "Invalid key" None))
      else if negb (LicenseInfo.is_used license_info)
              || match LicenseInfo.expiry_time license_info with
                 | Some expiry_time => expiry_time <? now_check
                 | None => false
                 end
      then
        (* line 212 *)
        let flagged :=
          LicenseInfo.mk (LicenseInfo.license_user_name license_info)
                         (LicenseInfo.validation_time license_info)
                         (LicenseInfo.expiry_time license_info) true in
        (* line 213 *)
        match add_seconds now_issue (LicenseInfo.validation_time license_info) with
        | Raise e => (<[name := flagged]> licenses, Raise e)
        | Return expiry_time =>
            let license_info' :=
              LicenseInfo.mk (LicenseInfo.license_user_name license_info)
                             (LicenseInfo.validation_time license_info)
                             (Some expiry_time) true in
            (<[name := license_info']> licenses,
             Return (Response.init name true "License issued" (Some expiry_time)))
        end
      else
        (licenses,
         Return (Response.init name true "License already in use"
                               (LicenseInfo.expiry_time license_info)))
  end.

(** The documents written to the socket by [handle_request]: one, or
    none when it raises. *)
Definition handle_request_sent (licenses : gmap string LicenseInfo.t)
    (request : Request.t) (now_check now_issue : DateTime.datetime) : list json :=
  match snd (handle_request licenses request now_check now_issue) with
  | Return response => [Response.to_dict response]
  | Raise _ => []
  end.

(** *** Serial runs of the server

    A serial run is a sequence of handled requests and reclaimer passes,
    each running to its end before the next starts: one step each.  The
    handler threads and the reclaimer thread of the code take no lock, so
    the runs in which they interleave between two lines are not among
    these.  Next to the licence table a run keeps, for every holder, the
    clock value at which [is_used] was last set to [True] (the read of
    line 213, taken right after the flag is set on line 212). *)

Inductive event : Type :=
| Handle (request : Request.t) (now_check now_issue : DateTime.datetime)
| ExpiryCheck (now : DateTime.datetime).

Definition run_state : Type :=
  (gmap string LicenseInfo.t * gmap string DateTime.datetime)%type.

Definition step (st : run_state) (ev : event) : run_state :=
  match ev with
  | Handle request now_check now_issue =>
      let '(licenses', outcome) := handle_request (fst st) request now_check now_issue in
      (licenses',
       match outcome with
       | Return response =>
           if String.eqb (Response.description response) "License issued"
           then <[Request.license_user_name request := now_issue]> (snd st)
           else snd st
       | Raise _ => <[Request.license_user_name request := now_issue]> (snd st)
       end)
  | ExpiryCheck now => (schedule_license_expiry_check (fst st) now, snd st)
  end.

(** The events at which the sum of line 213 would be in range for the
    holder named, whatever the state of its record. *)
Definition issue_in_range (roster : gmap string LicenseInfo.t) (ev : event) : Prop :=
  match ev with
  | Handle request _ now_issue =>
      forall license_info,
        roster !! Request.license_user_name request = Some license_info ->
        exists expiry_time,
          add_seconds now_issue (LicenseInfo.validation_time license_info)
          = Return expiry_time
  | ExpiryCheck _ => True
  end.

Definition run (payload : list (option string * option Z)) (evs : list event)
    : run_state :=
  fold_left step evs (load_licenses payload, ∅).

(** The invariant of the licence table as the specification words it: a
    leased record has an expiry, which lay strictly in the future when
    the record was last marked leased. *)
Definition leased_expiry_in_future (st : run_state) : Prop :=
  forall name license_info,
    fst st !! name = Some license_info ->
    LicenseInfo.is_used license_info = true ->
    exists expiry_time set_at,
      LicenseInfo.expiry_time license_info = Some expiry_time
      /\ snd st !! name = Some set_at
      /\ set_at < expiry_time.

(** The invariant the code keeps: a leased record has an expiry, which is
    the instant of the issue plus the record's validation time. *)
Definition leased_expiry_set (st : run_state) : Prop :=
  forall name license_info,
    fst st !! name = Some license_info ->
    LicenseInfo.is_used license_info = true ->
    exists expiry_time set_at,
      LicenseInfo.expiry_time license_info = Some expiry_time
      /\ snd st !! name = Some set_at
      /\ expiry_time = set_at + DateTime.timedelta_seconds (LicenseInfo.validation_time license_info).

(** The clock value an event of a run is decided on: the read of the
    condition of [handle_request], or the [now] of a reclaimer pass. *)
Definition clock (ev : event) : DateTime.datetime :=
  match ev with
  | Handle _ now_check _ => now_check
  | ExpiryCheck now => now
  end.

(** *** [ClientHandler.run]

    [received] is the document [json.loads] returns for the data of the
    socket, [None] when [recv], [decode] or [json.loads] raises.  Any
    exception ends the method in its [except] clause with nothing sent.
    The result is the licence table after the call and the documents
    written to the socket. *)

Module ClientHandler.

Definition parameters : list string := ["license_user_name"; "license_key"].

(** [handle_request] on the attributes of a decoded request, which need
    not be strings.  The keys of [licenses] are strings: a name that is
    [None], a boolean or a number is hashable and not found; a list or a
    dict is unhashable and [licenses.get] raises [TypeError]; a key that
    is not a string differs from every generated key. *)
Definition handle_decoded (licenses : gmap string LicenseInfo.t)
    (license_user_name license_key : json) (now_check now_issue : DateTime.datetime)
    : gmap string LicenseInfo.t * list json :=
  match license_user_name with
  | JStr name =>
      match license_key with
      | JStr key =>
          (fst (handle_request licenses (Request.mk name key) now_check now_issue),
           handle_request_sent licenses (Request.mk name key) now_check now_issue)
      | _ =>
          match licenses !! name with
          | None =>
              (licenses, [Response.to_dict (Response.init name false "Token not found" None)])
          | Some _ =>
              (licenses, [Response.to_dict (Response.init name false "Invalid key" None)])
          end
      end
  | JNull | JBool _ | JInt _ =>
      (licenses,
       [ JDict [ ("license_user_name", license_user_name);
                 ("license_valid", JBool false);
                 ("description", JStr "Token not found");
                 ("expired", JNull) ] ])
  | JList _ | JDict _ => (licenses, [])
  end.

Definition run (licenses : gmap string LicenseInfo.t) (received : option json)
    (now_check now_issue : DateTime.datetime)
    : gmap string LicenseInfo.t * list json :=
  match received with
  | Some (JDict request) =>
      (* [request['license_user_name']] in the [print] *)
      match dict_get "license_user_name" request with
      | None => (licenses, [])
      | Some _ =>
          (* [Request] called with the items of [request] as keyword arguments *)
          if forallb (fun kv => existsb (String.eqb (fst kv)) parameters) request
          then
            match dict_get "license_user_name" request, dict_get "license_key" request with
            | Some license_user_name, Some license_key =>
                handle_decoded licenses license_user_name license_key now_check now_issue
            | _, _ => (licenses, [])
            end
          else (licenses, [])
      end
  | _ => (licenses, [])
  end.

End ClientHandler.

(** *** The [print] command of [main]

    One line per licence, keyed by the licence name; the order of the
    lines on the terminal is not modelled.  [time_left] is
    [expiry_time - now], in microseconds; the clock is read anew for each
    line, [now name] being the read for the line of [name]. *)

Inductive print_line : Type :=
| TimeLeft (time_left : Z)
| TimeLeftUnlimited
| NotInUse.

Definition print_license (now : DateTime.datetime) (license_info : LicenseInfo.t)
    : print_line :=
  if LicenseInfo.is_used license_info
  then match LicenseInfo.expiry_time license_info with
       | Some expiry_time => TimeLeft (expiry_time - now)
       | None => TimeLeftUnlimited
       end
  else NotInUse.

Definition print_licenses (licenses : gmap string LicenseInfo.t)
    (now : string -> DateTime.datetime) : gmap string print_line :=
  map_imap (fun license_name license_info =>
              Some (print_license (now license_name) license_info)) licenses.

End Server.

(** ** Client.py *)

Module Client.

Module Response.

Record t := mk {
  license_valid : json;
  description : json;
  expired : option string
}.

(** [Response.__init__] *)
Definition init (license_valid description : json)
    (expired : option DateTime.datetime) : t :=
  mk license_valid description (DateTime.isoformat <$> expired).

Definition is_license_valid (self : t) : json := license_valid self.
Definition get_description (self : t) : json := description self.
Definition get_expired (self : t) : option string := expired self.

Definition parameters : list string :=
  ["license_valid"; "description"; "expired"].

(** [Response] called with the items of [document] as keyword
    arguments.  The call raises [TypeError] when the
    document is not a mapping, when it has a key that is no parameter
    of [__init__], and when a parameter has no key.  Inside [__init__]
    a value of [expired] other than [None] is asked for its
    [isoformat] method, which no decoded value has. *)
Definition from_kwargs (document : json) : result t :=
  match document with
  | JDict d =>
      if forallb (fun kv => existsb (String.eqb (fst kv)) parameters) d
      then
        match dict_get "license_valid" d, dict_get "description" d,
              dict_get "expired" d with
        | Some license_valid, Some description, Some expired =>
            match expired with
            | JNull => Return (init license_valid description None)
            | _ => Raise AttributeError
            end
        | _, _, _ => Raise TypeError
        end
      else Raise TypeError
  | _ => Raise TypeError
  end.

(** [s[:-1]] *)
Definition drop_last (s : string) : string :=
  string_of_list_ascii (removelast (list_ascii_of_string s)).

(** [get_expiry_time] and [is_valid] over the datetime library.  The
    library is a parameter: [T] is the type of its float timestamps, [gt]
    their comparison [>], [minus_one_f] the number [-1], and
    [expiry_timestamp s] what [datetime.fromisoformat(s).timestamp()]
    returns or raises.  [get_expiry_time] catches [ValueError] alone; any
    other exception leaves the method. *)
Section Library.

Variable T : Type.
Variable gt : T -> T -> bool.
Variable minus_one_f : T.
Variable expiry_timestamp : string -> result T.

Definition get_expiry_time_with (self : t) : result T :=
  match expired self with
  | Some s =>
      if String.eqb s EmptyString then Return minus_one_f
      else match expiry_timestamp (drop_last s) with
           | Return expiry_time => Return expiry_time
           | Raise ValueError => Return minus_one_f
           | Raise e => Raise e
           end
  | None => Return minus_one_f
  end.

(** [now] is [datetime.now(timezone.utc).timestamp()]. *)
Definition is_valid_with (self : t) (now : T) : result bool :=
  match get_expiry_time_with self with
  | Return expiry_time => Return (gt expiry_time now)
  | Raise e => Raise e
  end.

End Library.

(** The exact instance of the library: a timestamp is an integer number of
    microseconds, compared exactly, and the parser is
    [DateTime.fromisoformat].  The number [-1] that [get_expiry_time]
    returns, as such a timestamp: *)
Definition minus_one : Z := - DateTime.us_per_second.

Section Clock.

(** The UTC offset of the local zone at a wall-clock time, which
    [datetime.timestamp()] subtracts from a naive datetime. *)
Variable utcoffset : DateTime.datetime -> Z.

Definition timestamp (dt : DateTime.datetime) : Z := dt - utcoffset dt.

Definition get_expiry_time (self : t) : Z :=
  match expired self with
  | Some s =>
      if String.eqb s EmptyString then minus_one
      else match DateTime.fromisoformat (drop_last s) with
           | Some expiry_date => timestamp expiry_date
           | None => minus_one
           end
  | None => minus_one
  end.

(** [now] is [datetime.now(timezone.utc).timestamp()]. *)
Definition is_valid (self : t) (now : Z) : bool :=
  now <? get_expiry_time self.

(** The parameter of the exact instance. *)
Definition exact_expiry_timestamp (s : string) : result Z :=
  match DateTime.fromisoformat s with
  | Some expiry_date => Return (timestamp expiry_date)
  | None => Raise ValueError
  end.

End Clock.

End Response.

Module Request.

Record t := mk {
  license_user_name : option string;
  license_key : option string
}.

(** [request.__dict__] *)
Definition to_dict (self : t) : json :=
  JDict [ ("license_user_name", json_of_option_str (license_user_name self));
          ("license_key", json_of_option_str (license_key self)) ].

End Request.

(** What one round trip of [_request_license_token_thread] meets on the
    network, up to the decoding of the reply. *)
Inductive round_trip : Type :=
| ConnectionRefused            (* [connect] raises [ConnectionRefusedError] *)
| SocketError (errno : Z)      (* another [socket.error] *)
| OtherError                   (* any other exception before the reply is decoded *)
| EmptyResponse                (* [recv] returns no data *)
| InvalidJSON                  (* [json.loads] raises [JSONDecodeError] *)
| Reply (document : json).     (* [json.loads] returns [document] *)

Module LicenseClientAPI.

(** The attributes of a [LicenseClientAPI] object; [threads] counts the
    request threads started and not yet finished. *)
Record t := mk {
  license_key : option string;
  license_user_name : option string;
  server_port : option Z;
  server_address : option string;
  current_token : option Response.t;
  scheduler : Sched.scheduler;
  threads : nat
}.

(** [LicenseClientAPI.__init__] *)
Definition init : t := mk None None None None None [] 0.

Definition set_current_token (self : t) (token : option Response.t) : t :=
  mk (license_key self) (license_user_name self) (server_port self)
     (server_address self) token (scheduler self) (threads self).

Definition set_scheduler (self : t) (q : Sched.scheduler) : t :=
  mk (license_key self) (license_user_name self) (server_port self)
     (server_address self) (current_token self) q (threads self).

Definition set_threads (self : t) (n : nat) : t :=
  mk (license_key self) (license_user_name self) (server_port self)
     (server_address self) (current_token self) (scheduler self) n.

Definition start (self : t) (server_address : string) (server_port : Z) : t :=
  mk (license_key self) (license_user_name self) (Some server_port)
     (Some server_address) (current_token self) (scheduler self) (threads self).

Definition set_license (self : t) (license_user_name license_key : string) : t :=
  mk (Some license_key) (Some license_user_name) (server_port self)
     (server_address self) (current_token self) (scheduler self) (threads self).

(** [now] is [time.time()]. *)
Definition schedule_token_renewal (self : t) (expiry_time now : Z) : t :=
  let delay := expiry_time - now in
  set_scheduler self (Sched.enter (scheduler self) delay 1 Sched.RequestLicenseToken).

(** [threading.Thread(target=...).start()]: one more request thread. *)
Definition request_license_token (self : t) : t :=
  set_threads self (S (threads self)).

(** What the scheduler calls when an event falls due. *)
Definition perform (a : Sched.action) (self : t) : t :=
  match a with
  | Sched.RequestLicenseToken => request_license_token self
  end.

(** The synthetic token of a failed round trip. *)
Definition failure (description : string) : Response.t :=
  Response.init (JBool false) (JStr description) None.

Section Clock.

Variable utcoffset : DateTime.datetime -> Z.

Definition update_token (self : t) (new_token : option Response.t) (now : Z)
    : t * result unit :=
  match new_token with
  | Some token =>
      if truthy (Response.is_license_valid token)
      then
        let self' := set_current_token self new_token in
        (schedule_token_renewal self' (Response.get_expiry_time utcoffset token) now,
         Return tt)
      else (set_current_token self new_token, Return tt)
  | None =>
      (* [self.current_token.get_description()] on [None] *)
      (set_current_token self None, Raise AttributeError)
  end.

Definition get_license_token (self : t) (now : Z) : t * option Response.t :=
  let refused :=
    match current_token self with
    | Some token =>
        json_eq_str (Response.description token) "Server not running"
        || json_eq_str (Response.description token) "Connection error"
    | None => false
    end in
  if refused then (self, None)
  else
    let stale :=
      match current_token self with
      | Some token => negb (Response.is_valid utcoffset token now)
      | None => true
      end in
    let self' := if stale then request_license_token self else self in
    (self', current_token self').

(** The body of a request thread, run to its end on the outcome
    [rt] of the round trip. *)
Definition _request_license_token_thread (self : t) (rt : round_trip) (now : Z) : t :=
  match rt with
  | Reply document =>
      match Response.from_kwargs document with
      | Return response_obj =>
          match update_token self (Some response_obj) now with
          | (self', Return _) => self'
          | (self', Raise _) => set_current_token self' (Some (failure "Connection error"))
          end
      | Raise _ => set_current_token self (Some (failure "Connection error"))
      end
  | EmptyResponse =>
      set_current_token self (Some (failure "Empty response from server"))
  | ConnectionRefused =>
      set_current_token self (Some (failure "Server not running"))
  | InvalidJSON =>
      set_current_token self (Some (failure "Invalid JSON response"))
  | SocketError errno =>
      if errno =? 10054
      then set_current_token self (Some (failure "Connection forcibly closed"))
      else set_current_token self (Some (failure "Connection error"))
  | OtherError =>
      set_current_token self (Some (failure "Connection error"))
  end.

(** A started request thread runs and ends. *)
Definition thread_run (self : t) (rt : round_trip) (now : Z) : t :=
  let self' := _request_license_token_thread self rt now in
  set_threads self' (pred (threads self')).

End Clock.

(** [stop].  [connected] tells whether [connect] and [sendall] go
    through; their exceptions are swallowed by the [try].  The result
    carries the documents written to the socket. *)
Definition stop (self : t) (connected : bool) : t * list json * result unit :=
  match Sched.cancel (scheduler self) [] with
  | Raise e => (self, [], Raise e)
  | Return q =>
      let leave_request := Request.mk (license_user_name self) (Some "STOP") in
      let sent := if connected then [Request.to_dict leave_request] else [] in
      (mk None None (Some 0) None None q (threads self), sent, Return tt)
  end.

End LicenseClientAPI.

(** The round trips that do not end in a decoded token whose
    [license_valid] is true: transport errors, replies that cannot be
    decoded, and decoded rejections. *)
Definition terminal_failure (rt : round_trip) : bool :=
  match rt with
  | Reply document =>
      match Response.from_kwargs document with
      | Return response_obj => negb (truthy (Response.license_valid response_obj))
      | Raise _ => true
      end
  | _ => true
  end.

(** [generate_key] *)
Definition generate_key (username : string) : string :=
  MD5.hexdigest (encode_utf8 username).

End Client.

(** * The roster entry of a record *)

(** The part of a record that comes from the roster. *)
Definition roster_entry (license_info : Server.LicenseInfo.t) : string * Z :=
  (Server.LicenseInfo.license_user_name license_info,
   Server.LicenseInfo.validation_time license_info).

(** * Calls on a client, and a client served by the handler *)

(** The calls a program makes on a [LicenseClientAPI] object, and the end
    of a request thread on the outcome of its round trip. *)
Inductive client_call : Type :=
| CallStart (server_address : string) (server_port : Z)
| CallSetLicense (license_user_name license_key : string)
| CallGetLicenseToken (now : Z)
| CallUpdateToken (new_token : option Client.Response.t) (now : Z)
| CallRequestLicenseToken
| ThreadEnds (rt : Client.round_trip) (now : Z)
| CallStop (connected : bool).

Definition client_exec (utcoffset : DateTime.datetime -> Z)
    (self : Client.LicenseClientAPI.t) (c : client_call) : Client.LicenseClientAPI.t :=
  match c with
  | CallStart server_address server_port =>
      Client.LicenseClientAPI.start self server_address server_port
  | CallSetLicense license_user_name license_key =>
      Client.LicenseClientAPI.set_license self license_user_name license_key
  | CallGetLicenseToken now =>
      fst (Client.LicenseClientAPI.get_license_token utcoffset self now)
  | CallUpdateToken new_token now =>
      fst (Client.LicenseClientAPI.update_token utcoffset self new_token now)
  | CallRequestLicenseToken =>
      Client.LicenseClientAPI.request_license_token self
  | ThreadEnds rt now =>
      Client.LicenseClientAPI.thread_run utcoffset self rt now
  | CallStop connected =>
      fst (fst (Client.LicenseClientAPI.stop self connected))
  end.

(** The request a thread of the client writes to the socket. *)
Definition client_request (self : Client.LicenseClientAPI.t) : json :=
  Client.Request.to_dict
    (Client.Request.mk (Client.LicenseClientAPI.license_user_name self)
                       (Client.LicenseClientAPI.license_key self)).

(** The [gettoken] command of the client's [main]: the flag it prints
    after ["Valid: "]. *)
Definition main_gettoken (utcoffset : DateTime.datetime -> Z)
    (self : Client.LicenseClientAPI.t) (now : Z) : Client.LicenseClientAPI.t * bool :=
  let '(self', token) := Client.LicenseClientAPI.get_license_token utcoffset self now in
  (self',
   match token with
   | Some token => truthy (Client.Response.is_license_valid token)
   | None => false
   end).

(** The round trips a client can meet when the peer is this server: a
    transport failure, or a document written by [ClientHandler.run] or by
    [handle_client]. *)
Inductive served : Client.round_trip -> Prop :=
| served_refused : served Client.ConnectionRefused
| served_socket_error errno : served (Client.SocketError errno)
| served_other_error : served Client.OtherError
| served_empty : served Client.EmptyResponse
| served_invalid_json : served Client.InvalidJSON
| served_handler licenses received now_check now_issue document :
    In document (snd (Server.ClientHandler.run licenses received now_check now_issue)) ->
    served (Client.Reply document)
| served_pool data document :
    In document (Server.handle_client data) ->
    served (Client.Reply document).

(** The steps of a client driven by [main]: it calls [start],
    [set_license], [get_license_token] and [stop], never [update_token]
    itself, and its request threads end on round trips with this
    server. *)
Definition main_step (c : client_call) : Prop :=
  match c with
  | CallUpdateToken _ _ => False
  | ThreadEnds rt _ => served rt
  | _ => True
  end.

(** The cache of a client that has never decoded a reply: empty, or a
    synthetic failure. *)
Definition holds_no_success (self : Client.LicenseClientAPI.t) : Prop :=
  Client.LicenseClientAPI.current_token self = None
  \/ exists description,
       Client.LicenseClientAPI.current_token self
       = Some (Client.LicenseClientAPI.failure description).

(** * Data of the examples *)

(** A small roster used in the examples: [alice] with a lease of five
    seconds. *)
Definition roster_alice : list (option string * option Z) :=
  [(Some "alice", Some 5)].

Definition alice_info : Server.LicenseInfo.t :=
  Server.LicenseInfo.init "alice" 5.

(** The instant of the examples, and the table after [alice] has been
    issued a lease at that instant. *)
Definition noon : DateTime.datetime := DateTime.make 2026 11 3 12 0 0 0.

Definition alice_request : Server.Request.t :=
  Server.Request.mk "alice" (Server.generate_key "alice").

Definition licenses_leased : gmap string Server.LicenseInfo.t :=
  fst (Server.handle_request (Server.load_licenses roster_alice) alice_request noon noon).

Definition alice_leased : Server.LicenseInfo.t :=
  Server.LicenseInfo.mk "alice" 5 (Some (DateTime.make 2026 11 3 12 0 5 0)) true.

(** Rosters whose lease length is the default of [load_licenses] (the key
    [ValidationTime] is absent), and a negative one. *)
Definition roster_default : list (option string * option Z) :=
  [(Some "alice", None)].

Definition roster_negative : list (option string * option Z) :=
  [(Some "alice", Some (-5))].

(** A client process in the zone UTC, configured for [alice]. *)
Definition utc : DateTime.datetime -> Z := fun _ => 0.

Definition client_alice : Client.LicenseClientAPI.t :=
  Client.LicenseClientAPI.set_license
    (Client.LicenseClientAPI.start Client.LicenseClientAPI.init "127.0.0.1" 5000)
    "alice" (Client.generate_key "alice").

(** A token flagged invalid whose expiry lies in 2030, and a token flagged
    valid whose expiry is a whole second of 2030. *)
Definition token_rejected : Client.Response.t :=
  Client.Response.init (JBool false) (JStr "Invalid key")
    (Some (DateTime.make 2030 1 1 0 0 0 500000)).

Definition token_whole_second : Client.Response.t :=
  Client.Response.init (JBool true) (JStr "License issued")
    (Some (DateTime.make 2030 1 1 0 0 0 0)).

(** The document the handler writes when it issues [alice]'s lease at
    noon. *)
Definition alice_issued_document : json :=
  JDict [ ("license_user_name", JStr "alice");
          ("license_valid", JBool true);
          ("description", JStr "License issued");
          ("expired", JStr "2026-11-03T12:00:05") ].

(** A roster whose lease length takes the expiry out of the range of
    [datetime]. *)
Definition roster_overflow : list (option string * option Z) :=
  [(Some "alice", Some 1000000000000)].

(** * Properties *)

Example md5_empty : MD5.hexdigest (encode_utf8 EmptyString) = "d41d8cd98f00b204e9800998ecf8427e".
Proof. vm_compute. reflexivity. Qed.

Example md5_abc : MD5.hexdigest (encode_utf8 "abc") = "900150983cd24fb0d6963f7d28e17f72".
Proof. vm_compute. reflexivity. Qed.

Example md5_alice : MD5.hexdigest (encode_utf8 "alice") = "6384e2b2184bcbf58eccf10ca7a6563c".
Proof. vm_compute. reflexivity. Qed.

Example md5_fox :
  MD5.hexdigest (encode_utf8 "The quick brown fox jumps over the lazy dog")
  = "9e107d9d372bb6826bd81d3542a419d6".
Proof. vm_compute. reflexivity. Qed.

Example md5_x56 :
  MD5.hexdigest (repeat 120 56) = "668a72d5ba17f08e62dabcafad6db14b".
Proof. vm_compute. reflexivity. Qed.

Example md5_x120 :
  MD5.hexdigest (repeat 120 120) = "fb98667f98096de92620b64f46e1c5b5".
Proof. vm_compute. reflexivity. Qed.

Example isoformat_frac :
  DateTime.isoformat (DateTime.make 2030 1 1 0 0 0 500000) = "2030-01-01T00:00:00.500000".
Proof. vm_compute. reflexivity. Qed.

Example isoformat_whole :
  DateTime.isoformat (DateTime.make 2024 2 29 23 59 7 0) = "2024-02-29T23:59:07".
Proof. vm_compute. reflexivity. Qed.

Example isoformat_old :
  DateTime.isoformat (DateTime.make 1969 12 31 23 59 59 999999) = "1969-12-31T23:59:59.999999"
  /\ DateTime.make 1969 12 31 23 59 59 999999 = -1 /\ DateTime.make 2026 11 3 0 0 0 0 = 1793664000000000.
Proof. vm_compute. auto. Qed.

Example fromisoformat_ex :
  DateTime.fromisoformat "2030-01-01T00:00:00.12345" = Some (DateTime.make 2030 1 1 0 0 0 123450)
  /\ DateTime.fromisoformat "2030-01-01T00:00:0" = None
  /\ DateTime.fromisoformat "2030-01-01T00:00:00." = None
  /\ DateTime.fromisoformat "2030-01-01T00:0" = None
  /\ DateTime.fromisoformat "2030-01-0" = None
  /\ DateTime.fromisoformat "2030-02-29" = None
  /\ DateTime.fromisoformat "2030-01-01 00:00" = Some (DateTime.make 2030 1 1 0 0 0 0)
  /\ DateTime.fromisoformat "2030-01-01T00:00:00.1234567" = Some (DateTime.make 2030 1 1 0 0 0 123456).
Proof. vm_compute. repeat split. Qed.

(** ** The credential generator *)

Lemma hex_length (bs : list Z) :
  String.length (MD5.hex bs) = (2 * List.length bs)%nat.
Proof.
  induction bs as [|b bs IH]; cbn [MD5.hex String.length List.length]; [reflexivity|].
  rewrite IH. lia.
Qed.

Lemma digest_length (msg : list Z) : List.length (MD5.digest msg) = 16%nat.
Proof.
  unfold MD5.digest, MD5.bytes_of_word.
  cbn [List.length app]. reflexivity.
Qed.

Lemma hexdigest_length (msg : list Z) :
  String.length (MD5.hexdigest msg) = 32%nat.
Proof. unfold MD5.hexdigest. rewrite hex_length, digest_length. reflexivity. Qed.

Lemma generate_key_length (username : string) :
  String.length (Server.generate_key username) = 32%nat.
Proof. apply hexdigest_length. Qed.

(** No generated key is the [STOP] marker: a digest has 32 characters. *)
Lemma generate_key_not_STOP (username : string) :
  String.eqb (Server.generate_key username) "STOP" = false.
Proof.
  apply String.eqb_neq. intros H.
  pose proof (generate_key_length username) as L.
  rewrite H in L. discriminate L.
Qed.

Lemma eqb_generate_key (username : string) :
  String.eqb (Server.generate_key username) (Server.generate_key username) = true.
Proof. apply String.eqb_refl. Qed.

(** ** Sums of a clock value and a lease length *)

Lemma add_seconds_Return now seconds expiry_time :
  add_seconds now seconds = Return expiry_time ->
  expiry_time = now + DateTime.timedelta_seconds seconds
  /\ datetime_min <= expiry_time <= datetime_max.
Proof.
  unfold add_seconds, timedelta, datetime_add.
  destruct (_ && _); [|discriminate].
  destruct ((datetime_min <=? _) && _) eqn:Hrange; [|discriminate].
  intros [= <-]. split; [reflexivity|].
  apply andb_true_iff in Hrange as [H1 H2].
  apply Z.leb_le in H1, H2. lia.
Qed.

Lemma add_seconds_Raise now seconds e :
  add_seconds now seconds = Raise e -> e = OverflowError.
Proof.
  unfold add_seconds, timedelta, datetime_add.
  destruct (_ && _); [|intros [= <-]; reflexivity].
  destruct (_ && _); [discriminate | intros [= <-]; reflexivity].
Qed.

(** ** Requests handled by the server *)

Section HandleRequest.

Variable licenses : gmap string Server.LicenseInfo.t.
Variable name : string.
Variable license_info : Server.LicenseInfo.t.
Hypothesis rostered : licenses !! name = Some license_info.

Lemma handle_request_wrong_key key now_check now_issue :
  String.eqb (Server.generate_key name) key = false ->
  Server.handle_request licenses (Server.Request.mk name key) now_check now_issue
  = (licenses, Return (Server.Response.mk name false "Invalid key" None)).
Proof.
  intros Hkey. unfold Server.handle_request. cbn [Server.Request.license_user_name
    Server.Request.license_key]. rewrite rostered, Hkey. reflexivity.
Qed.

Lemma free_or_expired_condition now_check :
  (Server.LicenseInfo.is_used license_info = false
   \/ (exists expiry_time,
         Server.LicenseInfo.expiry_time license_info = Some expiry_time
         /\ expiry_time < now_check)) ->
  negb (Server.LicenseInfo.is_used license_info)
  || match Server.LicenseInfo.expiry_time license_info with
     | Some expiry_time => expiry_time <? now_check
     | None => false
     end = true.
Proof.
  intros [Hfree | (e & He & Hlt)].
  - rewrite Hfree. reflexivity.
  - rewrite He. apply Z.ltb_lt in Hlt. rewrite Hlt. apply orb_true_r.
Qed.

Lemma handle_request_issue now_check now_issue expiry :
  (Server.LicenseInfo.is_used license_info = false
   \/ (exists expiry_time,
         Server.LicenseInfo.expiry_time license_info = Some expiry_time
         /\ expiry_time < now_check)) ->
  add_seconds now_issue (Server.LicenseInfo.validation_time license_info) = Return expiry ->
  Server.handle_request licenses
    (Server.Request.mk name (Server.generate_key name)) now_check now_issue
  = (<[name := Server.LicenseInfo.mk (Server.LicenseInfo.license_user_name license_info)
                 (Server.LicenseInfo.validation_time license_info) (Some expiry) true]> licenses,
     Return (Server.Response.mk name true "License issued" (Some (DateTime.isoformat expiry)))).
Proof.
  intros Hfree Hsum. unfold Server.handle_request. cbn [Server.Request.license_user_name
    Server.Request.license_key]. rewrite rostered, eqb_generate_key. cbn [negb].
  rewrite (free_or_expired_condition now_check Hfree), Hsum. reflexivity.
Qed.

Lemma handle_request_raises now_check now_issue e :
  (Server.LicenseInfo.is_used license_info = false
   \/ (exists expiry_time,
         Server.LicenseInfo.expiry_time license_info = Some expiry_time
         /\ expiry_time < now_check)) ->
  add_seconds now_issue (Server.LicenseInfo.validation_time license_info) = Raise e ->
  Server.handle_request licenses
    (Server.Request.mk name (Server.generate_key name)) now_check now_issue
  = (<[name := Server.LicenseInfo.mk (Server.LicenseInfo.license_user_name license_info)
                 (Server.LicenseInfo.validation_time license_info)
                 (Server.LicenseInfo.expiry_time license_info) true]> licenses,
     Raise e).
Proof.
  intros Hfree Hsum. unfold Server.handle_request. cbn [Server.Request.license_user_name
    Server.Request.license_key]. rewrite rostered, eqb_generate_key. cbn [negb].
  rewrite (free_or_expired_condition now_check Hfree), Hsum. reflexivity.
Qed.

Lemma handle_request_in_use expiry_time now_check now_issue :
  Server.LicenseInfo.is_used license_info = true ->
  Server.LicenseInfo.expiry_time license_info = Some expiry_time ->
  now_check <= expiry_time ->
  Server.handle_request licenses
    (Server.Request.mk name (Server.generate_key name)) now_check now_issue
  = (licenses,
     Return (Server.Response.mk name true "License already in use"
               (Some (DateTime.isoformat expiry_time)))).
Proof.
  intros Hused He Hle. unfold Server.handle_request. cbn [Server.Request.license_user_name
    Server.Request.license_key]. rewrite rostered, eqb_generate_key, Hused, He. cbn [negb orb].
  apply Z.ltb_ge in Hle. rewrite Hle. reflexivity.
Qed.

End HandleRequest.

Lemma handle_request_unknown (licenses : gmap string Server.LicenseInfo.t)
    name key now_check now_issue :
  licenses !! name = None ->
  Server.handle_request licenses (Server.Request.mk name key) now_check now_issue
  = (licenses, Return (Server.Response.mk name false "Token not found" None)).
Proof.
  intros Hnone. unfold Server.handle_request. cbn [Server.Request.license_user_name].
  rewrite Hnone. reflexivity.
Qed.

Lemma roster_alice_lookup :
  Server.load_licenses roster_alice !! "alice" = Some alice_info.
Proof. vm_compute. reflexivity. Qed.

(** C1.  The server has no branch for the [STOP] marker: for a rostered
    holder [handle_request] takes a request whose key is ["STOP"] through
    the credential check, which it fails, and answers ["Invalid key"]; the
    licence table is left as it was. *)
Theorem C1_stop_marker_fails_credential_check
    (licenses : gmap string Server.LicenseInfo.t) name license_info now_check now_issue :
  licenses !! name = Some license_info ->
  Server.handle_request licenses (Server.Request.mk name "STOP") now_check now_issue
  = (licenses, Return (Server.Response.mk name false "Invalid key" None)).
Proof.
  intros Hin. eapply handle_request_wrong_key; [exact Hin|].
  apply generate_key_not_STOP.
Qed.

Lemma C1_stop_marker_witness :
  Server.load_licenses roster_alice !! "alice" = Some alice_info
  /\ Server.handle_request (Server.load_licenses roster_alice)
       (Server.Request.mk "alice" "STOP") 0 0
     = (Server.load_licenses roster_alice,
        Return (Server.Response.mk "alice" false "Invalid key" None)).
Proof.
  split; [exact roster_alice_lookup|].
  apply (C1_stop_marker_fails_credential_check _ "alice" alice_info 0 0).
  exact roster_alice_lookup.
Defined.

(** C6, as the code has it.  A rostered holder whose record is not leased,
    or whose lease has expired at the clock read of the check, asks with
    the right key, and the sum [now + validityDuration] of
    [calculate_expiry_date] is a datetime: the answer is ["License issued"]
    with [valid = true] and that expiry, and the record becomes leased with
    that expiry; no other record changes. *)
Theorem C6_issue_when_free_or_expired
    (licenses : gmap string Server.LicenseInfo.t) name license_info now_check now_issue
    (expiry : DateTime.datetime) :
  licenses !! name = Some license_info ->
  Server.LicenseInfo.is_used license_info = false
  \/ (Server.LicenseInfo.is_used license_info = true
      /\ exists expiry_time,
           Server.LicenseInfo.expiry_time license_info = Some expiry_time
           /\ expiry_time < now_check) ->
  Server.calculate_expiry_date (Server.LicenseInfo.validation_time license_info) now_issue
  = Return expiry ->
  let '(licenses', outcome) :=
    Server.handle_request licenses
      (Server.Request.mk name (Server.generate_key name)) now_check now_issue in
  outcome
  = Return (Server.Response.mk name true "License issued" (Some (DateTime.isoformat expiry)))
  /\ expiry = now_issue
              + DateTime.timedelta_seconds (Server.LicenseInfo.validation_time license_info)
  /\ (exists license_info',
        licenses' !! name = Some license_info'
        /\ Server.LicenseInfo.is_used license_info' = true
        /\ Server.LicenseInfo.expiry_time license_info' = Some expiry
        /\ Server.LicenseInfo.validation_time license_info'
           = Server.LicenseInfo.validation_time license_info)
  /\ (forall other, other <> name -> licenses' !! other = licenses !! other).
Proof.
  intros Hin Hfree Hsum. unfold Server.calculate_expiry_date in Hsum.
  rewrite (handle_request_issue licenses name license_info Hin now_check now_issue expiry).
  - split; [reflexivity|]. split; [apply (add_seconds_Return _ _ _ Hsum)|]. split.
    + eexists. rewrite lookup_insert_eq. split; [reflexivity|].
      cbn. auto.
    + intros other Hne. apply lookup_insert_ne. congruence.
  - destruct Hfree as [Hfree | (_ & e & He & Hlt)]; [left; exact Hfree|].
    right. exists e. auto.
  - exact Hsum.
Qed.

Lemma C6_issue_witness :
  let '(licenses', outcome) :=
    Server.handle_request (Server.load_licenses roster_alice)
      (Server.Request.mk "alice" (Server.generate_key "alice"))
      (DateTime.make 2026 11 3 12 0 0 0) (DateTime.make 2026 11 3 12 0 0 250) in
  outcome = Return (Server.Response.mk "alice" true "License issued"
                      (Some "2026-11-03T12:00:05.000250"))
  /\ DateTime.make 2026 11 3 12 0 5 250
     = DateTime.make 2026 11 3 12 0 0 250 + DateTime.timedelta_seconds 5
  /\ (exists license_info',
        licenses' !! "alice" = Some license_info'
        /\ Server.LicenseInfo.is_used license_info' = true
        /\ Server.LicenseInfo.expiry_time license_info'
           = Some (DateTime.make 2026 11 3 12 0 5 250)
        /\ Server.LicenseInfo.validation_time license_info' = 5)
  /\ (forall other, other <> "alice" ->
        licenses' !! other = Server.load_licenses roster_alice !! other).
Proof.
  exact (C6_issue_when_free_or_expired (Server.load_licenses roster_alice)
           "alice" alice_info
           (DateTime.make 2026 11 3 12 0 0 0) (DateTime.make 2026 11 3 12 0 0 250)
           (DateTime.make 2026 11 3 12 0 5 250)
           roster_alice_lookup (or_introl eq_refl) eq_refl).
Defined.

(** C6, as the specification words it, fails where the sum is no datetime.
    With the roster [{alice: 1000000000000}] the record of alice is loaded
    not leased; her request with the right key sets [is_used] on line 212,
    then line 213 raises [OverflowError]: no response is sent, and the
    record is left leased with no expiry. *)
Lemma C6_counterexample :
  let licenses := Server.load_licenses roster_overflow in
  licenses !! "alice" = Some (Server.LicenseInfo.mk "alice" 1000000000000 None false)
  /\ Server.handle_request licenses
       (Server.Request.mk "alice" (Server.generate_key "alice")) noon noon
     = (<["alice" := Server.LicenseInfo.mk "alice" 1000000000000 None true]> licenses,
        Raise OverflowError)
  /\ Server.handle_request_sent licenses
       (Server.Request.mk "alice" (Server.generate_key "alice")) noon noon = []
  /\ ~ (exists expiry,
          snd (Server.handle_request licenses
                 (Server.Request.mk "alice" (Server.generate_key "alice")) noon noon)
          = Return (Server.Response.mk "alice" true "License issued" (Some expiry))).
Proof.
  cbv zeta.
  assert (Hh : Server.handle_request (Server.load_licenses roster_overflow)
       (Server.Request.mk "alice" (Server.generate_key "alice")) noon noon
     = (<["alice" := Server.LicenseInfo.mk "alice" 1000000000000 None true]>
          (Server.load_licenses roster_overflow),
        Raise OverflowError)).
  { apply (handle_request_raises _ "alice"
             (Server.LicenseInfo.mk "alice" 1000000000000 None false)).
    - vm_compute. reflexivity.
    - left. reflexivity.
    - vm_compute. reflexivity. }
  split; [vm_compute; reflexivity|]. split; [exact Hh|].
  split; [unfold Server.handle_request_sent; rewrite Hh; reflexivity|].
  rewrite Hh. intros [expiry H]. discriminate H.
Qed.

(** C7.  A holder whose lease is held and has not expired asks again with
    the right key: the answer is ["License already in use"] with the
    expiry of the lease, and the licence table, hence the record's leased
    flag and expiry, is unchanged.  The request carries no identity of
    the caller, so this holds for any caller. *)
Theorem C7_already_in_use_keeps_lease
    (licenses : gmap string Server.LicenseInfo.t) name license_info expiry_time
    now_check now_issue :
  licenses !! name = Some license_info ->
  Server.LicenseInfo.is_used license_info = true ->
  Server.LicenseInfo.expiry_time license_info = Some expiry_time ->
  now_check <= expiry_time ->
  Server.handle_request licenses
    (Server.Request.mk name (Server.generate_key name)) now_check now_issue
  = (licenses,
     Return (Server.Response.init name true "License already in use" (Some expiry_time))).
Proof.
  intros Hin Hused He Hle.
  exact (handle_request_in_use licenses name license_info Hin expiry_time
           now_check now_issue Hused He Hle).
Qed.

Lemma licenses_leased_lookup : licenses_leased !! "alice" = Some alice_leased.
Proof. vm_compute. reflexivity. Qed.

Lemma C7_already_in_use_witness :
  Server.handle_request licenses_leased
    (Server.Request.mk "alice" (Server.generate_key "alice"))
    (DateTime.make 2026 11 3 12 0 3 0) (DateTime.make 2026 11 3 12 0 3 10)
  = (licenses_leased,
     Return (Server.Response.mk "alice" true "License already in use"
               (Some "2026-11-03T12:00:05"))).
Proof.
  apply (C7_already_in_use_keeps_lease licenses_leased "alice" alice_leased
           (DateTime.make 2026 11 3 12 0 5 0)).
  - exact licenses_leased_lookup.
  - reflexivity.
  - reflexivity.
  - vm_compute. discriminate.
Defined.

(** The scenario of the roster [{alice: 5}]: issued, then in use with the
    same expiry, then issued afresh once the five seconds have passed. *)
Example scenario_alice :
  let l0 := Server.load_licenses roster_alice in
  let '(l1, r1) := Server.handle_request l0 alice_request noon noon in
  let '(l2, r2) := Server.handle_request l1 alice_request (noon + 1) (noon + 1) in
  let '(l3, r3) := Server.handle_request l2 alice_request
                     (DateTime.make 2026 11 3 12 0 6 0) (DateTime.make 2026 11 3 12 0 6 0) in
  r1 = Return (Server.Response.mk "alice" true "License issued" (Some "2026-11-03T12:00:05"))
  /\ r2 = Return (Server.Response.mk "alice" true "License already in use"
                    (Some "2026-11-03T12:00:05"))
  /\ r3 = Return (Server.Response.mk "alice" true "License issued" (Some "2026-11-03T12:00:11"))
  /\ snd (Server.handle_request l0 (Server.Request.mk "bob" (Server.generate_key "bob")) noon noon)
     = Return (Server.Response.mk "bob" false "Token not found" None).
Proof. vm_compute. repeat split. Qed.

(** The sums at the ends of the range of [datetime]: from the third of
    November 2026 the last lease length that can be issued is 251608636799
    seconds, which ends in the last second of the year 9999; one second
    more raises, and so does a length of a thousand million days. *)
Example add_seconds_range :
  add_seconds (DateTime.make 2026 11 3 0 0 0 0) 251608636799
  = Return (DateTime.make 9999 12 31 23 59 59 0)
  /\ add_seconds (DateTime.make 2026 11 3 0 0 0 0) 251608636800 = Raise OverflowError
  /\ add_seconds (DateTime.make 2026 11 3 0 0 0 0) (-63929260800) = Return datetime_min
  /\ add_seconds (DateTime.make 2026 11 3 0 0 0 0) (-63929260801) = Raise OverflowError
  /\ timedelta (86400 * 1000000000) = Raise OverflowError
  /\ timedelta (86400 * 999999999) = Return (86400 * 999999999 * 1000000).
Proof. vm_compute. repeat split. Qed.

(** C10.  The client's [generate_key] and the server's compute the same
    function, the MD5 hex digest of the UTF-8 bytes of the user name, so a
    key derived by the client passes the server's comparison: for a
    rostered holder the answer is never ["Invalid key"], it has
    [license_valid = True]; the one way the call gives no answer is the
    [OverflowError] of a sum out of range on the issue path. *)
Theorem C10_generate_key_client_server (username : string) :
  Client.generate_key username = Server.generate_key username
  /\ Client.generate_key username = MD5.hexdigest (encode_utf8 username)
  /\ forall (licenses : gmap string Server.LicenseInfo.t) license_info now_check now_issue,
       licenses !! username = Some license_info ->
       let outcome :=
         snd (Server.handle_request licenses
                (Server.Request.mk username (Client.generate_key username))
                now_check now_issue) in
       (forall response, outcome = Return response ->
          Server.Response.license_valid response = true
          /\ Server.Response.description response <> "Invalid key")
       /\ ((exists response, outcome = Return response)
           \/ (outcome = Raise OverflowError
               /\ add_seconds now_issue (Server.LicenseInfo.validation_time license_info)
                  = Raise OverflowError)).
Proof.
  split; [reflexivity|]. split; [reflexivity|].
  intros licenses license_info now_check now_issue Hin.
  unfold Server.handle_request.
  cbn [Server.Request.license_user_name Server.Request.license_key].
  rewrite Hin. change (Client.generate_key username) with (Server.generate_key username).
  rewrite eqb_generate_key. cbn [negb].
  destruct (_ || _).
  - destruct (add_seconds now_issue _) as [expiry|e] eqn:Hsum; cbn [snd].
    + split; [|left; eexists; reflexivity].
      intros response [= <-]. cbn. split; [reflexivity | discriminate].
    + apply add_seconds_Raise in Hsum as Heq. subst e.
      split; [discriminate | right; split; reflexivity].
  - cbn [snd]. split; [|left; eexists; reflexivity].
    intros response [= <-]. cbn. split; [reflexivity | discriminate].
Qed.

Lemma C10_generate_key_witness :
  Client.generate_key "alice" = "6384e2b2184bcbf58eccf10ca7a6563c"
  /\ forall response,
       snd (Server.handle_request (Server.load_licenses roster_alice)
              (Server.Request.mk "alice" (Client.generate_key "alice")) noon noon)
       = Return response ->
       Server.Response.license_valid response = true
       /\ Server.Response.description response <> "Invalid key".
Proof.
  split; [vm_compute; reflexivity|].
  apply (proj2 (proj2 (C10_generate_key_client_server "alice"))
           (Server.load_licenses roster_alice) alice_info noon noon).
  exact roster_alice_lookup.
Defined.

(** ** The roster along a run *)

Lemma fst_step_handle st request now_check now_issue :
  fst (Server.step st (Server.Handle request now_check now_issue))
  = fst (Server.handle_request (fst st) request now_check now_issue).
Proof.
  unfold Server.step.
  destruct (Server.handle_request (fst st) request now_check now_issue). reflexivity.
Qed.

Lemma handle_request_roster (licenses : gmap string Server.LicenseInfo.t)
    request now_check now_issue name :
  roster_entry <$> (fst (Server.handle_request licenses request now_check now_issue) !! name)
  = roster_entry <$> (licenses !! name).
Proof.
  destruct request as [rname rkey]. unfold Server.handle_request.
  cbn [Server.Request.license_user_name Server.Request.license_key].
  destruct (licenses !! rname) as [license_info|] eqn:Hin; [|reflexivity].
  destruct (negb _); [reflexivity|].
  destruct (_ || _); [|reflexivity].
  destruct (add_seconds now_issue _); cbn [fst];
    (destruct (decide (rname = name)) as [<-|Hne];
     [rewrite lookup_insert_eq, Hin; reflexivity
     |rewrite lookup_insert_ne by exact Hne; reflexivity]).
Qed.

Lemma expiry_check_one_roster now license_t :
  roster_entry (Server.expiry_check_one now license_t) = roster_entry license_t.
Proof.
  unfold Server.expiry_check_one.
  destruct (Server.LicenseInfo.expiry_time license_t); [|reflexivity].
  destruct (_ && _); reflexivity.
Qed.

Lemma step_roster st ev name :
  roster_entry <$> (fst (Server.step st ev) !! name) = roster_entry <$> (fst st !! name).
Proof.
  destruct ev as [request now_check now_issue | now].
  - rewrite fst_step_handle. apply handle_request_roster.
  - cbn [Server.step fst]. unfold Server.schedule_license_expiry_check.
    rewrite lookup_fmap. destruct (fst st !! name) as [i|]; [|reflexivity].
    cbn. rewrite expiry_check_one_roster. reflexivity.
Qed.

Lemma steps_roster evs st name :
  roster_entry <$> (fst (fold_left Server.step evs st) !! name)
  = roster_entry <$> (fst st !! name).
Proof.
  revert st. induction evs as [|ev evs IH]; intros st; cbn [fold_left]; [reflexivity|].
  rewrite IH. apply step_roster.
Qed.

Lemma load_licenses_name payload name license_info :
  Server.load_licenses payload !! name = Some license_info ->
  Server.LicenseInfo.license_user_name license_info = name.
Proof.
  unfold Server.load_licenses.
  assert (Hgen : forall (acc : gmap string Server.LicenseInfo.t),
    (forall n i, acc !! n = Some i -> Server.LicenseInfo.license_user_name i = n) ->
    forall n i,
      fold_left
        (fun licenses item =>
           <[default EmptyString (fst item) :=
               Server.LicenseInfo.init (default EmptyString (fst item))
                 (default 0 (snd item))]> licenses)
        payload acc !! n = Some i ->
      Server.LicenseInfo.license_user_name i = n).
  { induction payload as [|item payload IH]; intros acc Hacc n i; cbn [fold_left].
    - apply Hacc.
    - apply IH. intros n' i' Hl.
      destruct (decide (default EmptyString (fst item) = n')) as [Heq|Hne].
      + rewrite Heq, lookup_insert_eq in Hl. inversion Hl; subst. reflexivity.
      + rewrite lookup_insert_ne in Hl by exact Hne. eapply Hacc; eauto. }
  apply Hgen. intros n i Hl. rewrite lookup_empty in Hl. discriminate.
Qed.

(** ** The invariant of the licence table *)

Lemma load_licenses_fresh payload name license_info :
  Server.load_licenses payload !! name = Some license_info ->
  Server.LicenseInfo.is_used license_info = false
  /\ Server.LicenseInfo.expiry_time license_info = None.
Proof.
  unfold Server.load_licenses.
  assert (Hgen : forall (acc : gmap string Server.LicenseInfo.t),
    (forall n i, acc !! n = Some i ->
       Server.LicenseInfo.is_used i = false /\ Server.LicenseInfo.expiry_time i = None) ->
    forall n i,
      fold_left
        (fun licenses item =>
           <[default EmptyString (fst item) :=
               Server.LicenseInfo.init (default EmptyString (fst item)) (default 0 (snd item))]> licenses)
        payload acc !! n = Some i ->
      Server.LicenseInfo.is_used i = false /\ Server.LicenseInfo.expiry_time i = None).
  { induction payload as [|item payload IH]; intros acc Hacc n i; cbn [fold_left].
    - apply Hacc.
    - apply IH. intros n' i' Hl.
      destruct (decide (default EmptyString (fst item) = n')) as [Heq|Hne].
      + rewrite Heq, lookup_insert_eq in Hl. inversion Hl; subst. cbn. auto.
      + rewrite lookup_insert_ne in Hl by exact Hne. eapply Hacc; eauto. }
  apply Hgen. intros n i Hl. rewrite lookup_empty in Hl. discriminate.
Qed.

Lemma leased_expiry_set_init payload :
  Server.leased_expiry_set (Server.load_licenses payload, ∅).
Proof.
  intros name license_info Hl Hused. cbn [fst] in Hl.
  apply load_licenses_fresh in Hl as [Hfalse _]. congruence.
Qed.

Lemma expiry_check_one_used now license_t :
  Server.LicenseInfo.is_used (Server.expiry_check_one now license_t) = true ->
  Server.expiry_check_one now license_t = license_t.
Proof.
  unfold Server.expiry_check_one.
  destruct (Server.LicenseInfo.expiry_time license_t) as [e|]; [|reflexivity].
  destruct (_ && _); [cbn; discriminate | reflexivity].
Qed.

Lemma roster_validation_time (roster licenses : gmap string Server.LicenseInfo.t)
    name license_info :
  roster_entry <$> (licenses !! name) = roster_entry <$> (roster !! name) ->
  licenses !! name = Some license_info ->
  exists rostered,
    roster !! name = Some rostered
    /\ Server.LicenseInfo.validation_time rostered
       = Server.LicenseInfo.validation_time license_info.
Proof.
  intros Hroster Hin. rewrite Hin in Hroster.
  destruct (roster !! name) as [rostered|]; [|discriminate].
  exists rostered. split; [reflexivity|].
  cbn in Hroster. injection Hroster as _ Hvt. congruence.
Qed.

Lemma leased_expiry_set_step roster st ev :
  (forall name, roster_entry <$> (fst st !! name) = roster_entry <$> (roster !! name)) ->
  Server.issue_in_range roster ev ->
  Server.leased_expiry_set st -> Server.leased_expiry_set (Server.step st ev).
Proof.
  destruct st as [licenses set_at]. unfold Server.leased_expiry_set.
  cbn [fst snd]. intros Hroster Hrange Hinv.
  destruct ev as [[rname rkey] now_check now_issue | now].
  - unfold Server.step, Server.handle_request.
    cbn [fst snd Server.Request.license_user_name Server.Request.license_key].
    destruct (licenses !! rname) as [license_info|] eqn:Hin; [|exact Hinv].
    destruct (negb (String.eqb (Server.generate_key rname) rkey)); [exact Hinv|].
    destruct (_ || _); [|exact Hinv].
    destruct (roster_validation_time roster licenses rname license_info (Hroster rname) Hin)
      as (rostered & Hr & Hvt).
    cbn [Server.issue_in_range Server.Request.license_user_name] in Hrange.
    destruct (Hrange rostered Hr) as [expiry Hsum]. rewrite Hvt in Hsum. rewrite Hsum.
    apply add_seconds_Return in Hsum as [Hexp _].
    cbn [Server.Response.init Server.Response.description String.eqb Ascii.eqb Bool.eqb].
    intros name info. cbn [fst snd].
    destruct (decide (rname = name)) as [->|Hne].
    + rewrite !lookup_insert_eq. intros Hl _. inversion Hl; subst; clear Hl.
      eexists _, _. cbn. split; [reflexivity|]. split; reflexivity.
    + rewrite !lookup_insert_ne by exact Hne. apply Hinv.
  - unfold Server.step, Server.schedule_license_expiry_check. cbn [fst snd].
    intros name info Hl Hused. rewrite lookup_fmap in Hl.
    destruct (licenses !! name) as [old|] eqn:Hold; [|discriminate].
    cbn in Hl. injection Hl as <-.
    pose proof (expiry_check_one_used _ _ Hused) as Hsame.
    rewrite Hsame in Hused |- *. exact (Hinv name old Hold Hused).
Qed.

Lemma leased_expiry_set_steps roster evs st :
  (forall name, roster_entry <$> (fst st !! name) = roster_entry <$> (roster !! name)) ->
  Forall (Server.issue_in_range roster) evs ->
  Server.leased_expiry_set st -> Server.leased_expiry_set (fold_left Server.step evs st).
Proof.
  intros Hroster Hevs. revert st Hroster.
  induction Hevs as [|ev evs Hev _ IH]; intros st Hroster Hinv; cbn [fold_left]; [exact Hinv|].
  apply IH.
  - intros name. rewrite step_roster. apply Hroster.
  - exact (leased_expiry_set_step roster st ev Hroster Hev Hinv).
Qed.

(** C9, as the code has it.  From the table loaded from the roster, where
    no record is leased, every serial run of handled requests and
    reclaimer passes in which the sum [now + validityDuration] of each
    request of a rostered holder is a datetime reaches a table in which
    each leased record has its expiry set, equal to the instant of its
    issue plus the record's validation time; that expiry lay strictly in
    the future at that instant when the validation time is positive. *)
Theorem C9_leased_record_has_expiry (payload : list (option string * option Z))
    (evs : list Server.event) :
  Forall (Server.issue_in_range (Server.load_licenses payload)) evs ->
  (forall name license_info,
     Server.load_licenses payload !! name = Some license_info ->
     Server.LicenseInfo.is_used license_info = false)
  /\ Server.leased_expiry_set (Server.run payload evs)
  /\ (forall name license_info,
        fst (Server.run payload evs) !! name = Some license_info ->
        Server.LicenseInfo.is_used license_info = true ->
        0 < Server.LicenseInfo.validation_time license_info ->
        exists expiry_time set_at,
          Server.LicenseInfo.expiry_time license_info = Some expiry_time
          /\ snd (Server.run payload evs) !! name = Some set_at
          /\ set_at < expiry_time).
Proof.
  intros Hevs.
  assert (Hinv : Server.leased_expiry_set (Server.run payload evs)).
  { apply (leased_expiry_set_steps (Server.load_licenses payload)).
    - reflexivity.
    - exact Hevs.
    - apply leased_expiry_set_init. }
  split; [|split; [exact Hinv|]].
  - intros name license_info Hl. apply (load_licenses_fresh _ _ _ Hl).
  - intros name license_info Hl Hused Hpos.
    destruct (Hinv name license_info Hl Hused) as (e & t & He & Ht & Heq).
    exists e, t. split; [exact He|]. split; [exact Ht|].
    subst e. unfold DateTime.timedelta_seconds, DateTime.us_per_second. lia.
Qed.

Lemma C9_leased_record_witness :
  fst (Server.run roster_alice [Server.Handle alice_request noon noon]) !! "alice"
  = Some alice_leased
  /\ exists expiry_time set_at,
       Server.LicenseInfo.expiry_time alice_leased = Some expiry_time
       /\ snd (Server.run roster_alice [Server.Handle alice_request noon noon]) !! "alice"
          = Some set_at
       /\ set_at < expiry_time.
Proof.
  assert (Hl : fst (Server.run roster_alice [Server.Handle alice_request noon noon]) !! "alice"
               = Some alice_leased) by (vm_compute; reflexivity).
  assert (Hevs : Forall (Server.issue_in_range (Server.load_licenses roster_alice))
                   [Server.Handle alice_request noon noon]).
  { apply List.Forall_cons; [|apply List.Forall_nil].
    intros license_info Hin.
    pose proof (eq_trans (eq_sym Hin) roster_alice_lookup) as Heq.
    injection Heq as ->. eexists. vm_compute. reflexivity. }
  split; [exact Hl|].
  apply (proj2 (proj2 (C9_leased_record_has_expiry roster_alice
                         [Server.Handle alice_request noon noon] Hevs))
           "alice" alice_leased Hl).
  - reflexivity.
  - reflexivity.
Defined.

(** C9, as the specification words it, fails: with the default validation
    time of [load_licenses], zero, the expiry of a fresh lease is the very
    instant of the issue, and with a negative one it lies in the past; with
    a validation time whose sum with the clock is no datetime, the record
    is left leased with no expiry at all. *)
Lemma C9_counterexample :
  ~ Server.leased_expiry_in_future
      (Server.run roster_default [Server.Handle alice_request noon noon])
  /\ ~ Server.leased_expiry_in_future
         (Server.run roster_negative [Server.Handle alice_request noon noon])
  /\ ~ Server.leased_expiry_in_future
         (Server.run roster_overflow [Server.Handle alice_request noon noon]).
Proof.
  split; [|split]; intros H.
  - destruct (H "alice" (Server.LicenseInfo.mk "alice" 0 (Some noon) true))
      as (e & t & He & Ht & Hlt).
    + vm_compute. reflexivity.
    + reflexivity.
    + cbn in He. injection He as <-.
      assert (Hs : snd (Server.run roster_default [Server.Handle alice_request noon noon])
                     !! "alice" = Some noon) by (vm_compute; reflexivity).
      pose proof (eq_trans (eq_sym Ht) Hs) as Heq. injection Heq as ->. lia.
  - destruct (H "alice" (Server.LicenseInfo.mk "alice" (-5)
                           (Some (DateTime.make 2026 11 3 11 59 55 0)) true))
      as (e & t & He & Ht & Hlt).
    + vm_compute. reflexivity.
    + reflexivity.
    + cbn in He. injection He as <-.
      assert (Hs : snd (Server.run roster_negative [Server.Handle alice_request noon noon])
                     !! "alice" = Some noon) by (vm_compute; reflexivity).
      pose proof (eq_trans (eq_sym Ht) Hs) as Heq. injection Heq as ->.
      vm_compute in Hlt. discriminate Hlt.
  - destruct (H "alice" (Server.LicenseInfo.mk "alice" 1000000000000 None true))
      as (e & t & He & Ht & Hlt).
    + vm_compute. reflexivity.
    + reflexivity.
    + discriminate He.
Qed.

(** ** The client's token *)

Section TokenValidity.

Variable T : Type.
Variable gt : T -> T -> bool.
Variable minus_one_f : T.
Variable expiry_timestamp : string -> result T.

Lemma get_expiry_time_with_flag (token : Client.Response.t) (flag : json) :
  Client.Response.get_expiry_time_with T minus_one_f expiry_timestamp
    (Client.Response.mk flag (Client.Response.description token)
       (Client.Response.expired token))
  = Client.Response.get_expiry_time_with T minus_one_f expiry_timestamp token.
Proof. reflexivity. Qed.

Lemma get_expiry_time_with_no_text (token : Client.Response.t) :
  Client.Response.expired token = None
  \/ Client.Response.expired token = Some EmptyString ->
  Client.Response.get_expiry_time_with T minus_one_f expiry_timestamp token
  = Return minus_one_f.
Proof.
  unfold Client.Response.get_expiry_time_with. intros [-> | ->]; reflexivity.
Qed.

End TokenValidity.

(** The exact instance is the integer [get_expiry_time] and [is_valid]. *)
Lemma get_expiry_time_exact utcoffset (token : Client.Response.t) :
  Client.Response.get_expiry_time_with Z Client.Response.minus_one
    (Client.Response.exact_expiry_timestamp utcoffset) token
  = Return (Client.Response.get_expiry_time utcoffset token).
Proof.
  unfold Client.Response.get_expiry_time_with, Client.Response.get_expiry_time,
    Client.Response.exact_expiry_timestamp.
  destruct (Client.Response.expired token) as [s|]; [|reflexivity].
  destruct (String.eqb s EmptyString); [reflexivity|].
  destruct (DateTime.fromisoformat _); reflexivity.
Qed.

Lemma is_valid_exact utcoffset (token : Client.Response.t) (now : Z) :
  Client.Response.is_valid_with Z (fun expiry_time now' => now' <? expiry_time)
    Client.Response.minus_one (Client.Response.exact_expiry_timestamp utcoffset) token now
  = Return (Client.Response.is_valid utcoffset token now).
Proof.
  unfold Client.Response.is_valid_with. rewrite get_expiry_time_exact. reflexivity.
Qed.

(** C2, as the code has it.  Whatever the datetime library computes,
    [is_valid] is true exactly when the timestamp that [get_expiry_time]
    returns for the token is strictly later than now; the valid flag plays
    no part; a token with no expiry, or an empty one, is never reported
    valid.  [now] is a clock value not before the [-1] that
    [get_expiry_time] returns for a missing expiry. *)
Theorem C2_is_valid_compares_expiry_only
    (T : Type) (gt : T -> T -> bool) (minus_one_f : T)
    (expiry_timestamp : string -> result T) (token : Client.Response.t) (now : T) :
  gt minus_one_f now = false ->
  let get_expiry_time := Client.Response.get_expiry_time_with T minus_one_f expiry_timestamp in
  let is_valid := Client.Response.is_valid_with T gt minus_one_f expiry_timestamp in
  (is_valid token now = Return true <->
   exists expiry_time,
     get_expiry_time token = Return expiry_time /\ gt expiry_time now = true)
  /\ (forall flag,
        is_valid
          (Client.Response.mk flag (Client.Response.description token)
             (Client.Response.expired token)) now
        = is_valid token now)
  /\ (Client.Response.expired token = None -> is_valid token now = Return false)
  /\ (is_valid token now = Return true ->
      exists s, Client.Response.expired token = Some s /\ s <> EmptyString).
Proof.
  intros Hnow get_expiry_time is_valid. subst get_expiry_time is_valid.
  unfold Client.Response.is_valid_with. split; [|split; [|split]].
  - destruct (Client.Response.get_expiry_time_with _ _ _ token) as [ts|e]; split.
    + intros [= Hgt]. exists ts. split; [reflexivity | exact Hgt].
    + intros (ts' & [= <-] & Hgt). rewrite Hgt. reflexivity.
    + discriminate.
    + intros (ts' & Heq & _). discriminate Heq.
  - intros flag. rewrite get_expiry_time_with_flag. reflexivity.
  - intros Hnone. rewrite get_expiry_time_with_no_text by (left; exact Hnone).
    rewrite Hnow. reflexivity.
  - destruct (Client.Response.expired token) as [s|] eqn:Hexp.
    + destruct (String.eqb_spec s EmptyString) as [->|Hne].
      * rewrite get_expiry_time_with_no_text by (right; exact Hexp).
        rewrite Hnow. discriminate.
      * intros _. exists s. split; [reflexivity | exact Hne].
    + rewrite get_expiry_time_with_no_text by (left; exact Hexp).
      rewrite Hnow. discriminate.
Qed.

Lemma C2_is_valid_witness :
  (noon <? Client.Response.minus_one) = false
  /\ (Client.Response.is_valid_with Z (fun expiry_time now' => now' <? expiry_time)
        Client.Response.minus_one (Client.Response.exact_expiry_timestamp utc)
        token_rejected noon = Return true <->
      exists expiry_time,
        Client.Response.get_expiry_time_with Z Client.Response.minus_one
          (Client.Response.exact_expiry_timestamp utc) token_rejected = Return expiry_time
        /\ (noon <? expiry_time) = true).
Proof.
  assert (H : (noon <? Client.Response.minus_one) = false) by (vm_compute; reflexivity).
  split; [exact H|].
  exact (proj1 (C2_is_valid_compares_expiry_only Z (fun expiry_time now' => now' <? expiry_time)
                  Client.Response.minus_one (Client.Response.exact_expiry_timestamp utc)
                  token_rejected noon H)).
Defined.

(** C2, as the specification words it, fails: the token of a rejected
    request, whose valid flag is false, is reported valid in 2026 as long
    as its expiry, here in 2030, lies ahead. *)
Lemma C2_counterexample :
  Client.Response.license_valid token_rejected = JBool false
  /\ Client.Response.expired token_rejected = Some "2030-01-01T00:00:00.500000"
  /\ Client.Response.is_valid_with Z (fun expiry_time now' => now' <? expiry_time)
       Client.Response.minus_one (Client.Response.exact_expiry_timestamp utc)
       token_rejected noon = Return true
  /\ Client.Response.is_valid utc token_rejected noon = true.
Proof. vm_compute. repeat split. Qed.

(** ** Replies of the server read by the client *)

Lemma from_kwargs_server_response (r : Server.Response.t) :
  Client.Response.from_kwargs (Server.Response.to_dict r) = Raise TypeError.
Proof. reflexivity. Qed.

Lemma from_kwargs_expired (document : json) (token : Client.Response.t) :
  Client.Response.from_kwargs document = Return token ->
  Client.Response.expired token = None.
Proof.
  unfold Client.Response.from_kwargs.
  destruct document as [ | | | | |d]; try discriminate.
  destruct (forallb _ d); [|discriminate].
  destruct (dict_get "license_valid" d); [|discriminate].
  destruct (dict_get "description" d); [|discriminate].
  destruct (dict_get "expired" d) as [e|]; [|discriminate].
  destruct e; try discriminate. intros [= <-]. reflexivity.
Qed.

(** C3.  The document the server builds for a response, [to_dict], carries
    the key [license_user_name], which the client's [Response] does not
    take: decoding it raises [TypeError] for every response, and the
    request thread records ["Connection error"] in place of the reply. *)
Theorem C3_server_response_is_not_decoded (r : Server.Response.t) :
  Client.Response.from_kwargs (Server.Response.to_dict r) = Raise TypeError
  /\ forall utcoffset self now,
       Client.LicenseClientAPI.current_token
         (Client.LicenseClientAPI._request_license_token_thread utcoffset self
            (Client.Reply (Server.Response.to_dict r)) now)
       = Some (Client.Response.mk (JBool false) (JStr "Connection error") None).
Proof. split; [apply from_kwargs_server_response | intros; reflexivity]. Qed.

(** Without the extra key a reply is decoded only if its expiry is null. *)
Example from_kwargs_client_shape :
  Client.Response.from_kwargs
    (JDict [("license_valid", JBool false); ("description", JStr "Invalid key");
            ("expired", JNull)])
  = Return (Client.Response.mk (JBool false) (JStr "Invalid key") None)
  /\ Client.Response.from_kwargs
       (JDict [("license_valid", JBool true); ("description", JStr "License issued");
               ("expired", JStr "2026-11-03T12:00:05")])
     = Raise AttributeError.
Proof. split; reflexivity. Qed.

(** ** Request threads of the client *)

Lemma request_license_token_iter (n : nat) (self : Client.LicenseClientAPI.t) :
  Client.LicenseClientAPI.threads
    (Nat.iter n Client.LicenseClientAPI.request_license_token self)
  = (n + Client.LicenseClientAPI.threads self)%nat.
Proof.
  induction n as [|n IH]; [reflexivity|].
  cbn [Nat.iter nat_rect]. unfold Client.LicenseClientAPI.request_license_token at 1.
  cbn [Client.LicenseClientAPI.threads Client.LicenseClientAPI.set_threads].
  change (nat_rect _ self (fun _ => Client.LicenseClientAPI.request_license_token) n)
    with (Nat.iter n Client.LicenseClientAPI.request_license_token self).
  rewrite IH. lia.
Qed.

(** C4, as the code has it.  [request_license_token] starts a request
    thread at every call and consults no state of the client: the number
    of round trips in flight grows by one each time, whatever it was, and
    the other attributes are left alone.  The action of a scheduled
    renewal is that same method. *)
Theorem C4_every_call_starts_a_thread (self : Client.LicenseClientAPI.t) (n : nat) :
  Client.LicenseClientAPI.request_license_token self
  = Client.LicenseClientAPI.set_threads self (S (Client.LicenseClientAPI.threads self))
  /\ (forall a : Sched.action,
        Client.LicenseClientAPI.perform a self
        = Client.LicenseClientAPI.request_license_token self)
  /\ Client.LicenseClientAPI.threads
       (Nat.iter n Client.LicenseClientAPI.request_license_token self)
     = (n + Client.LicenseClientAPI.threads self)%nat.
Proof.
  split; [reflexivity|]. split; [|apply request_license_token_iter].
  intros a. destruct a. reflexivity.
Qed.

(** C4, as the specification words it, fails: two calls with no thread
    finished in between leave two round trips in flight, and so do two
    calls of [get_license_token] while no token is cached. *)
Lemma C4_counterexample :
  Client.LicenseClientAPI.threads client_alice = 0%nat
  /\ Client.LicenseClientAPI.threads
       (Client.LicenseClientAPI.request_license_token
          (Client.LicenseClientAPI.request_license_token client_alice)) = 2%nat
  /\ Client.LicenseClientAPI.threads
       (fst (Client.LicenseClientAPI.get_license_token utc
               (fst (Client.LicenseClientAPI.get_license_token utc client_alice noon))
               (noon + 1))) = 2%nat.
Proof. vm_compute. repeat split. Qed.

(** C5.  [stop] calls [scheduler.cancel()] with no argument, which raises
    [TypeError] before anything else is done: nothing is sent and no
    attribute is cleared. *)
Theorem C5_stop_raises (self : Client.LicenseClientAPI.t) (connected : bool) :
  Client.LicenseClientAPI.stop self connected = (self, [], Raise TypeError).
Proof. reflexivity. Qed.

Example stop_client_alice :
  Client.LicenseClientAPI.stop client_alice true = (client_alice, [], Raise TypeError)
  /\ Client.LicenseClientAPI.license_user_name client_alice = Some "alice"
  /\ Client.LicenseClientAPI.scheduler client_alice = [].
Proof. repeat split. Qed.

(** ** Failed requests *)

Lemma update_token_rejected utcoffset self (token : Client.Response.t) now :
  truthy (Client.Response.license_valid token) = false ->
  Client.LicenseClientAPI.update_token utcoffset self (Some token) now
  = (Client.LicenseClientAPI.set_current_token self (Some token), Return tt).
Proof.
  intros Hfalse. unfold Client.LicenseClientAPI.update_token, Client.Response.is_license_valid.
  rewrite Hfalse. reflexivity.
Qed.

Lemma thread_terminal_failure utcoffset self rt now :
  Client.terminal_failure rt = true ->
  exists token,
    Client.LicenseClientAPI._request_license_token_thread utcoffset self rt now
    = Client.LicenseClientAPI.set_current_token self (Some token)
    /\ truthy (Client.Response.license_valid token) = false
    /\ Client.Response.expired token = None.
Proof.
  intros Hfail.
  destruct rt as [ | errno | | | | document];
    cbn [Client.LicenseClientAPI._request_license_token_thread].
  - eexists; split; [reflexivity|]. split; reflexivity.
  - destruct (errno =? 10054); eexists; (split; [reflexivity|]); split; reflexivity.
  - eexists; split; [reflexivity|]. split; reflexivity.
  - eexists; split; [reflexivity|]. split; reflexivity.
  - eexists; split; [reflexivity|]. split; reflexivity.
  - unfold Client.terminal_failure in Hfail.
    destruct (Client.Response.from_kwargs document) as [token|e] eqn:Hdec.
    + apply negb_true_iff in Hfail.
      rewrite (update_token_rejected utcoffset self token now Hfail).
      exists token. split; [reflexivity|]. split; [exact Hfail|].
      apply (from_kwargs_expired document token Hdec).
    + eexists; split; [reflexivity|]. split; reflexivity.
Qed.

Lemma get_license_token_refuses utcoffset self (token : Client.Response.t) now :
  Client.LicenseClientAPI.current_token self = Some token ->
  Client.Response.description token = JStr "Server not running"
  \/ Client.Response.description token = JStr "Connection error" ->
  Client.LicenseClientAPI.get_license_token utcoffset self now = (self, None).
Proof.
  intros Htoken Hd. unfold Client.LicenseClientAPI.get_license_token.
  rewrite Htoken. destruct Hd as [-> | ->]; reflexivity.
Qed.

(** C8, as the code has it.  A round trip that ends in a terminal failure
    (a transport error, a reply that cannot be decoded, or a decoded
    rejection) leaves a failure token in the cache: ["Server not running"]
    for a refused connection, ["Connection forcibly closed"] for the socket
    error 10054 and ["Connection error"] for any other, ["Connection
    error"] again for another exception or a reply that cannot be decoded,
    ["Empty response from server"], ["Invalid JSON response"], or the
    decoded rejection itself.  The scheduler is as it was, so no renewal
    is armed.  When the token is recorded as ["Server not running"] or
    ["Connection error"], [get_license_token] afterwards returns [None] and
    starts no request, at any later time; a call of
    [request_license_token] by the caller still starts one. *)
Theorem C8_terminal_failure_is_cached_not_renewed
    utcoffset (self : Client.LicenseClientAPI.t) (rt : Client.round_trip) (now later : Z) :
  Client.terminal_failure rt = true ->
  let self' := Client.LicenseClientAPI._request_license_token_thread utcoffset self rt now in
  let cached description :=
    Client.LicenseClientAPI.current_token self'
    = Some (Client.Response.mk (JBool false) (JStr description) None) in
  ((rt = Client.ConnectionRefused -> cached "Server not running")
   /\ (rt = Client.SocketError 10054 -> cached "Connection forcibly closed")
   /\ (forall errno, errno <> 10054 -> rt = Client.SocketError errno ->
       cached "Connection error")
   /\ (rt = Client.OtherError -> cached "Connection error")
   /\ (rt = Client.EmptyResponse -> cached "Empty response from server")
   /\ (rt = Client.InvalidJSON -> cached "Invalid JSON response")
   /\ (forall document e,
         rt = Client.Reply document -> Client.Response.from_kwargs document = Raise e ->
         cached "Connection error")
   /\ (forall document token,
         rt = Client.Reply document -> Client.Response.from_kwargs document = Return token ->
         Client.LicenseClientAPI.current_token self' = Some token))
  /\ (exists token,
        Client.LicenseClientAPI.current_token self' = Some token
        /\ truthy (Client.Response.is_license_valid token) = false
        /\ Client.Response.expired token = None)
  /\ Client.LicenseClientAPI.scheduler self' = Client.LicenseClientAPI.scheduler self
  /\ Client.LicenseClientAPI.threads self' = Client.LicenseClientAPI.threads self
  /\ (forall token,
        Client.LicenseClientAPI.current_token self' = Some token ->
        Client.Response.description token = JStr "Server not running"
        \/ Client.Response.description token = JStr "Connection error" ->
        Client.LicenseClientAPI.get_license_token utcoffset self' later = (self', None))
  /\ Client.LicenseClientAPI.threads (Client.LicenseClientAPI.request_license_token self')
     = S (Client.LicenseClientAPI.threads self').
Proof.
  intros Hfail self' cached.
  destruct (thread_terminal_failure utcoffset self rt now Hfail) as (token & Hrun & Hflag & Hexp).
  split; [|split; [|split; [|split; [|split]]]].
  - subst cached self'. cbv beta.
    split; [intros ->; reflexivity|]. split; [intros ->; reflexivity|].
    split; [intros errno Hne ->;
            cbn [Client.LicenseClientAPI._request_license_token_thread];
            apply Z.eqb_neq in Hne; rewrite Hne; reflexivity|].
    split; [intros ->; reflexivity|]. split; [intros ->; reflexivity|].
    split; [intros ->; reflexivity|].
    split.
    + intros document e -> Hdec.
      cbn [Client.LicenseClientAPI._request_license_token_thread]. rewrite Hdec. reflexivity.
    + intros document token' -> Hdec. unfold Client.terminal_failure in Hfail.
      rewrite Hdec in Hfail. apply negb_true_iff in Hfail.
      cbn [Client.LicenseClientAPI._request_license_token_thread]. rewrite Hdec.
      rewrite (update_token_rejected utcoffset self token' now Hfail). reflexivity.
  - exists token. subst self'. rewrite Hrun. auto.
  - subst self'. rewrite Hrun. reflexivity.
  - subst self'. rewrite Hrun. reflexivity.
  - intros token' Htoken Hd.
    exact (get_license_token_refuses utcoffset self' token' later Htoken Hd).
  - reflexivity.
Qed.

Lemma C8_terminal_failure_witness :
  let rt := Client.Reply
              (Server.Response.to_dict (Server.Response.mk "bob" false "Token not found" None)) in
  let self' := Client.LicenseClientAPI._request_license_token_thread utc client_alice rt noon in
  Client.terminal_failure rt = true
  /\ Client.LicenseClientAPI.current_token self'
     = Some (Client.Response.mk (JBool false) (JStr "Connection error") None)
  /\ Client.LicenseClientAPI.scheduler self' = []
  /\ Client.LicenseClientAPI.get_license_token utc self' (noon + 1) = (self', None).
Proof.
  intros rt self'.
  assert (Hfail : Client.terminal_failure rt = true) by reflexivity.
  destruct (C8_terminal_failure_is_cached_not_renewed utc client_alice rt noon (noon + 1) Hfail)
    as ((_ & _ & _ & _ & _ & _ & Hcached & _) & _ & Hsched & _ & Hrefuse & _).
  pose proof (Hcached _ TypeError eq_refl eq_refl) as Htoken.
  split; [exact Hfail|]. split; [exact Htoken|]. split; [exact Hsched|].
  exact (Hrefuse _ Htoken (or_intror eq_refl)).
Defined.

(** C8, as the specification words it, fails for a connection reset.  The
    socket error 10054 is recorded as ["Connection forcibly closed"], which
    [get_license_token] does not test for: the next call starts a request
    thread and hands the failure token out. *)
Lemma C8_counterexample :
  let self' :=
    Client.LicenseClientAPI._request_license_token_thread utc client_alice
      (Client.SocketError 10054) noon in
  Client.terminal_failure (Client.SocketError 10054) = true
  /\ Client.LicenseClientAPI.current_token self'
     = Some (Client.LicenseClientAPI.failure "Connection forcibly closed")
  /\ Client.LicenseClientAPI.threads self' = 0%nat
  /\ Client.LicenseClientAPI.get_license_token utc self' (noon + 1)
     = (Client.LicenseClientAPI.request_license_token self',
        Some (Client.LicenseClientAPI.failure "Connection forcibly closed"))
  /\ Client.LicenseClientAPI.threads
       (fst (Client.LicenseClientAPI.get_license_token utc self' (noon + 1))) = 1%nat.
Proof. vm_compute. repeat split. Qed.

(** The handler of [LicenseServer.run] gives every message that decodes as
    UTF-8, the leave request included, the same reply, and sends nothing
    for one that does not. *)
Lemma handle_client_reply (data : list Z) (document : json) :
  In document (Server.handle_client data) ->
  document
  = Server.Response.to_dict
      (Server.Response.mk "Server" false "Connection with server has been closed." None).
Proof.
  unfold Server.handle_client. destruct data as [|b data]; [intros []|].
  destruct (utf8_valid (b :: data)); [|intros []].
  intros [<- | []]. reflexivity.
Qed.

(** * Further properties of the server *)

(** ** Rejected requests *)

Lemma generate_key_eqb_neq (name key : string) :
  String.eqb (Server.generate_key name) key = false <-> Server.generate_key name <> key.
Proof. apply String.eqb_neq. Qed.

(** A request is answered with [license_valid = False] exactly when the
    holder is not rostered or the key is not the one generated from the
    name; such an answer carries no expiry and the licence table is left
    as it was.  Every answer names the holder of the request. *)
Theorem rejection_iff_unknown_or_wrong_key
    (licenses : gmap string Server.LicenseInfo.t) (request : Server.Request.t)
    (now_check now_issue : DateTime.datetime) :
  let name := Server.Request.license_user_name request in
  let '(licenses', outcome) := Server.handle_request licenses request now_check now_issue in
  ((exists response,
      outcome = Return response /\ Server.Response.license_valid response = false) <->
     licenses !! name = None
     \/ Server.generate_key name <> Server.Request.license_key request)
  /\ (forall response,
        outcome = Return response ->
        (Server.Response.license_valid response = false <->
           licenses !! name = None
           \/ Server.generate_key name <> Server.Request.license_key request)
        /\ (Server.Response.license_valid response = false ->
            licenses' = licenses /\ Server.Response.expired response = None)
        /\ (Server.Response.description response = "Token not found" <->
            licenses !! name = None)
        /\ Server.Response.license_user_name response = name).
Proof.
  destruct request as [name key]. cbn [Server.Request.license_user_name].
  unfold Server.handle_request.
  cbn [Server.Request.license_user_name Server.Request.license_key].
  destruct (licenses !! name) as [license_info|] eqn:Hin.
  - destruct (String.eqb (Server.generate_key name) key) eqn:Hkey; cbn [negb].
    + apply String.eqb_eq in Hkey.
      assert (Hno : ~ (Some license_info = None \/ Server.generate_key name <> key))
        by (intros [H|H]; [discriminate H | contradiction]).
      destruct (_ || _); [destruct (add_seconds now_issue _) as [expiry|e]|].
      * split; [split; [intros (r & [= <-] & Hv); cbn in Hv; discriminate Hv | intros H; destruct (Hno H)]|].
        intros response [= <-]. cbn.
        split; [split; [discriminate | intros H; destruct (Hno H)]|].
        split; [discriminate|]. split; [split; discriminate | reflexivity].
      * split; [split; [intros (r & Hr & _); discriminate Hr | intros H; destruct (Hno H)]|].
        intros response Hr. discriminate Hr.
      * split; [split; [intros (r & [= <-] & Hv); cbn in Hv; discriminate Hv | intros H; destruct (Hno H)]|].
        intros response [= <-]. cbn.
        split; [split; [discriminate | intros H; destruct (Hno H)]|].
        split; [discriminate|]. split; [split; discriminate | reflexivity].
    + apply String.eqb_neq in Hkey.
      split; [split; [right; exact Hkey | intros _; eexists; split; reflexivity]|].
      intros response [= <-]. cbn.
      split; [split; [right; exact Hkey | reflexivity]|].
      split; [split; reflexivity|]. split; [split; discriminate | reflexivity].
  - split; [split; [left; reflexivity | intros _; eexists; split; reflexivity]|].
    intros response [= <-]. cbn.
    split; [split; [left; reflexivity | reflexivity]|].
    split; [split; reflexivity|]. split; [split; reflexivity | reflexivity].
Qed.

(** ** The roster along a run, from its loading on *)

(** The roster is fixed: along every run the licence table has the
    holders loaded from the roster and no other, each under its own name
    and with the validation time it was loaded with. *)
Theorem run_keeps_roster (payload : list (option string * option Z))
    (evs : list Server.event) (name : string) :
  roster_entry <$> (fst (Server.run payload evs) !! name)
  = (fun license_info => (name, Server.LicenseInfo.validation_time license_info))
      <$> (Server.load_licenses payload !! name).
Proof.
  unfold Server.run. rewrite steps_roster. cbn [fst].
  destruct (Server.load_licenses payload !! name) as [i|] eqn:Hl; [|reflexivity].
  cbn. unfold roster_entry. rewrite (load_licenses_name payload name i Hl). reflexivity.
Qed.

(** ** A lease within its window *)

Lemma step_keeps_lease st ev name license_info expiry_time :
  fst st !! name = Some license_info ->
  Server.LicenseInfo.is_used license_info = true ->
  Server.LicenseInfo.expiry_time license_info = Some expiry_time ->
  Server.clock ev <= expiry_time ->
  fst (Server.step st ev) !! name = Some license_info.
Proof.
  intros Hin Hused He Hle.
  destruct ev as [[rname rkey] now_check now_issue | now]; cbn [Server.clock] in Hle.
  - rewrite fst_step_handle. unfold Server.handle_request.
    cbn [Server.Request.license_user_name Server.Request.license_key].
    destruct (fst st !! rname) as [held|] eqn:Hr; [|exact Hin].
    destruct (negb _); [exact Hin|].
    destruct (decide (rname = name)) as [->|Hne].
    + rewrite Hin in Hr. injection Hr as <-.
      rewrite Hused, He. cbn [negb orb].
      apply Z.ltb_ge in Hle. rewrite Hle. exact Hin.
    + destruct (_ || _); [|exact Hin].
      destruct (add_seconds now_issue _); cbn [fst];
        rewrite lookup_insert_ne by exact Hne; exact Hin.
  - cbn [Server.step fst]. unfold Server.schedule_license_expiry_check.
    rewrite lookup_fmap, Hin. cbn. f_equal.
    unfold Server.expiry_check_one. rewrite He.
    apply Z.ltb_ge in Hle. rewrite Hle. reflexivity.
Qed.

(** While no event of a run is clocked after the expiry of a lease, the
    record of the holder stays as it is, whatever requests and reclaimer
    passes come in; a request with the right key clocked within the window
    is answered ["License already in use"] with that expiry and changes
    nothing.  So the lease is issued to nobody else before it expires. *)
Theorem lease_held_until_expiry (evs : list Server.event) (st : Server.run_state)
    name license_info expiry_time :
  fst st !! name = Some license_info ->
  Server.LicenseInfo.is_used license_info = true ->
  Server.LicenseInfo.expiry_time license_info = Some expiry_time ->
  Forall (fun ev => Server.clock ev <= expiry_time) evs ->
  let licenses' := fst (fold_left Server.step evs st) in
  licenses' !! name = Some license_info
  /\ forall now_check now_issue,
       now_check <= expiry_time ->
       Server.handle_request licenses'
         (Server.Request.mk name (Server.generate_key name)) now_check now_issue
       = (licenses',
          Return (Server.Response.mk name true "License already in use"
                    (Some (DateTime.isoformat expiry_time)))).
Proof.
  intros Hin Hused He Hevs licenses'.
  assert (Hkept : licenses' !! name = Some license_info).
  { subst licenses'. revert st Hin.
    induction Hevs as [|ev evs Hev _ IH]; intros st Hin; cbn [fold_left]; [exact Hin|].
    apply IH. exact (step_keeps_lease st ev name license_info expiry_time Hin Hused He Hev). }
  split; [exact Hkept|].
  intros now_check now_issue Hle.
  exact (handle_request_in_use licenses' name license_info Hkept expiry_time
           now_check now_issue Hused He Hle).
Qed.

Lemma lease_held_until_expiry_witness :
  let evs := [Server.ExpiryCheck (noon + 1);
              Server.Handle alice_request (noon + 2) (noon + 3);
              Server.Handle (Server.Request.mk "alice" "STOP") (noon + 4) (noon + 4)] in
  fst (fold_left Server.step evs (licenses_leased, ∅)) !! "alice" = Some alice_leased.
Proof.
  intros evs.
  apply (lease_held_until_expiry evs (licenses_leased, ∅) "alice" alice_leased
           (DateTime.make 2026 11 3 12 0 5 0)).
  - exact licenses_leased_lookup.
  - reflexivity.
  - reflexivity.
  - repeat constructor; vm_compute; discriminate.
Defined.

(** ** The reclaimer *)

Lemma expiry_check_one_max t1 t2 license_t :
  Server.expiry_check_one t2 (Server.expiry_check_one t1 license_t)
  = Server.expiry_check_one (Z.max t1 t2) license_t.
Proof.
  destruct license_t as [n v [e|] u]; [|reflexivity].
  unfold Server.expiry_check_one at 2 3. cbn [Server.LicenseInfo.expiry_time
    Server.LicenseInfo.is_used Server.LicenseInfo.license_user_name
    Server.LicenseInfo.validation_time].
  destruct u; rewrite ?andb_true_r, ?andb_false_r.
  - destruct (Z.ltb_spec e t1) as [H1|H1], (Z.ltb_spec e (Z.max t1 t2)) as [Hm|Hm];
      try lia; unfold Server.expiry_check_one; cbn; rewrite ?andb_false_r, ?andb_true_r;
      try reflexivity.
    + destruct (Z.ltb_spec e t2); [reflexivity | lia].
    + destruct (Z.ltb_spec e t2); [lia | reflexivity].
  - unfold Server.expiry_check_one. cbn. rewrite andb_false_r. reflexivity.
Qed.

(** Two reclaimer passes amount to one pass at the later of their clock
    values; so a pass is idempotent, and passes commute. *)
Theorem expiry_check_twice (licenses : gmap string Server.LicenseInfo.t)
    (t1 t2 : DateTime.datetime) :
  Server.schedule_license_expiry_check
    (Server.schedule_license_expiry_check licenses t1) t2
  = Server.schedule_license_expiry_check licenses (Z.max t1 t2)
  /\ Server.schedule_license_expiry_check
       (Server.schedule_license_expiry_check licenses t1) t1
     = Server.schedule_license_expiry_check licenses t1
  /\ Server.schedule_license_expiry_check
       (Server.schedule_license_expiry_check licenses t1) t2
     = Server.schedule_license_expiry_check
         (Server.schedule_license_expiry_check licenses t2) t1.
Proof.
  assert (Hmax : forall a b,
    Server.schedule_license_expiry_check (Server.schedule_license_expiry_check licenses a) b
    = Server.schedule_license_expiry_check licenses (Z.max a b)).
  { intros a b. unfold Server.schedule_license_expiry_check.
    rewrite <- map_fmap_compose. apply map_fmap_ext.
    intros name license_t _. apply expiry_check_one_max. }
  split; [apply Hmax|]. split.
  - rewrite Hmax, Z.max_id. reflexivity.
  - rewrite !Hmax, Z.max_comm. reflexivity.
Qed.

(** A reclaimer pass changes the licence table exactly when some leased
    record has an expiry before the clock value of the pass; after a pass
    no leased record has one. *)
Theorem expiry_check_changes_iff_expired (licenses : gmap string Server.LicenseInfo.t)
    (now : DateTime.datetime) :
  (Server.schedule_license_expiry_check licenses now = licenses <->
   forall name license_info expiry_time,
     licenses !! name = Some license_info ->
     Server.LicenseInfo.is_used license_info = true ->
     Server.LicenseInfo.expiry_time license_info = Some expiry_time ->
     now <= expiry_time)
  /\ (forall name license_info expiry_time,
        Server.schedule_license_expiry_check licenses now !! name = Some license_info ->
        Server.LicenseInfo.is_used license_info = true ->
        Server.LicenseInfo.expiry_time license_info = Some expiry_time ->
        now <= expiry_time).
Proof.
  unfold Server.schedule_license_expiry_check. split; [split|].
  - intros Heq name license_info e Hin Hused He.
    assert (Hl : (Server.expiry_check_one now <$> licenses) !! name = Some license_info)
      by (rewrite Heq; exact Hin).
    rewrite lookup_fmap, Hin in Hl. cbn in Hl. injection Hl as Hl.
    unfold Server.expiry_check_one in Hl. rewrite He, Hused, andb_true_r in Hl.
    destruct (Z.ltb_spec e now) as [Hlt|Hge]; [|exact Hge].
    rewrite <- Hl in Hused. discriminate Hused.
  - intros Hnone. apply map_eq. intros name. rewrite lookup_fmap.
    destruct (licenses !! name) as [license_info|] eqn:Hin; [|reflexivity].
    cbn. f_equal. unfold Server.expiry_check_one.
    destruct (Server.LicenseInfo.expiry_time license_info) as [e|] eqn:He; [|reflexivity].
    destruct (Server.LicenseInfo.is_used license_info) eqn:Hused;
      [|rewrite andb_false_r; reflexivity].
    pose proof (Hnone name license_info e Hin Hused He) as Hle.
    apply Z.ltb_ge in Hle. rewrite Hle. reflexivity.
  - intros name license_info e Hl Hused He. rewrite lookup_fmap in Hl.
    destruct (licenses !! name) as [old|] eqn:Hin; [|discriminate Hl].
    cbn in Hl. injection Hl as Hl.
    pose proof Hused as Hused'. rewrite <- Hl in Hused'.
    rewrite (expiry_check_one_used now old Hused') in Hl. subst old.
    unfold Server.expiry_check_one in Hused'. rewrite He, Hused, andb_true_r in Hused'.
    destruct (Z.ltb_spec e now) as [Hlt|Hge]; [discriminate Hused' | exact Hge].
Qed.

(** The reclaimer cannot be observed in the answers: a request gets the
    same response, or raises alike, whether or not a pass has run before
    it, at a clock value not after the one the request is decided on. *)
Theorem expiry_check_not_observable (licenses : gmap string Server.LicenseInfo.t)
    (request : Server.Request.t) (t now_check now_issue : DateTime.datetime) :
  t <= now_check ->
  snd (Server.handle_request (Server.schedule_license_expiry_check licenses t)
         request now_check now_issue)
  = snd (Server.handle_request licenses request now_check now_issue).
Proof.
  intros Hle. destruct request as [name key].
  unfold Server.handle_request, Server.schedule_license_expiry_check.
  cbn [Server.Request.license_user_name Server.Request.license_key].
  rewrite lookup_fmap.
  destruct (licenses !! name) as [[n v e u]|]; [|reflexivity].
  cbn [fmap option_fmap option_map].
  destruct (negb _); [reflexivity|].
  unfold Server.expiry_check_one. cbn.
  destruct e as [e|]; [|destruct u; cbn; [reflexivity | destruct (add_seconds _ _); reflexivity]].
  destruct u; cbn; rewrite ?andb_true_r, ?andb_false_r;
    [|destruct (add_seconds _ _); reflexivity].
  destruct (Z.ltb_spec e t) as [Hlt|Hge]; cbn.
  - assert (He : (e <? now_check) = true) by (apply Z.ltb_lt; lia).
    rewrite He. destruct (add_seconds _ _); reflexivity.
  - destruct (e <? now_check); [destruct (add_seconds _ _)|]; reflexivity.
Qed.

Lemma expiry_check_not_observable_witness :
  snd (Server.handle_request
         (Server.schedule_license_expiry_check licenses_leased
            (DateTime.make 2026 11 3 12 0 6 0))
         alice_request (DateTime.make 2026 11 3 12 0 7 0) (DateTime.make 2026 11 3 12 0 7 0))
  = snd (Server.handle_request licenses_leased
           alice_request (DateTime.make 2026 11 3 12 0 7 0) (DateTime.make 2026 11 3 12 0 7 0)).
Proof.
  apply (expiry_check_not_observable licenses_leased alice_request).
  vm_compute. discriminate.
Defined.

(** ** The expiry of an answer *)

(** Whatever the licence table, a rejection carries no expiry and
    ["License issued"] carries one; a valid answer lacks its expiry
    exactly when the record of the holder is in use with no expiry set,
    the state that an issue whose sum raised leaves behind: the answer is
    then ["License already in use"] with a null expiry. *)
Theorem valid_response_carries_expiry (licenses : gmap string Server.LicenseInfo.t)
    (request : Server.Request.t) (now_check now_issue : DateTime.datetime)
    (response : Server.Response.t) :
  snd (Server.handle_request licenses request now_check now_issue) = Return response ->
  (Server.Response.license_valid response = false ->
   Server.Response.expired response = None)
  /\ (Server.Response.description response = "License issued" ->
      Server.Response.license_valid response = true
      /\ is_Some (Server.Response.expired response))
  /\ (Server.Response.license_valid response = true ->
      (Server.Response.expired response = None <->
       exists license_info,
         licenses !! Server.Request.license_user_name request = Some license_info
         /\ Server.LicenseInfo.is_used license_info = true
         /\ Server.LicenseInfo.expiry_time license_info = None))
  /\ (Server.Response.license_valid response = true ->
      Server.Response.expired response = None ->
      Server.Response.description response = "License already in use").
Proof.
  destruct request as [name key]. unfold Server.handle_request.
  cbn [Server.Request.license_user_name Server.Request.license_key].
  destruct (licenses !! name) as [license_info|] eqn:Hin.
  - destruct (negb _).
    + intros [= <-]. cbn. repeat split; try discriminate; try (intros _; reflexivity).
    + destruct (negb (Server.LicenseInfo.is_used license_info) || _) eqn:Hcond.
      * destruct (add_seconds now_issue _) as [expiry|e]; [|discriminate].
        intros [= <-]. cbn.
        split; [discriminate|]. split; [intros _; split; [reflexivity | eauto]|].
        split; [|discriminate].
        intros _. split; [discriminate|].
        intros (info & [= <-] & Hused & Hnone).
        rewrite Hused, Hnone in Hcond. discriminate Hcond.
      * apply orb_false_elim in Hcond as [Hused Hexp]. apply negb_false_iff in Hused.
        intros [= <-]. cbn.
        split; [discriminate|]. split; [discriminate|]. split; [|reflexivity].
        intros _. destruct (Server.LicenseInfo.expiry_time license_info) as [e|] eqn:He; cbn.
        -- split; [discriminate|]. intros (info & [= <-] & _ & Hnone). congruence.
        -- split; [|reflexivity]. intros _. exists license_info. auto.
  - intros [= <-]. cbn. repeat split; try discriminate; try (intros _; reflexivity).
Qed.

Lemma valid_response_carries_expiry_witness :
  let licenses :=
    fst (Server.handle_request (Server.load_licenses roster_overflow)
           alice_request noon noon) in
  snd (Server.handle_request licenses alice_request (noon + 1) (noon + 1))
  = Return (Server.Response.mk "alice" true "License already in use" None)
  /\ exists license_info,
       licenses !! "alice" = Some license_info
       /\ Server.LicenseInfo.is_used license_info = true
       /\ Server.LicenseInfo.expiry_time license_info = None.
Proof.
  intros licenses.
  assert (H : snd (Server.handle_request licenses alice_request (noon + 1) (noon + 1))
              = Return (Server.Response.mk "alice" true "License already in use" None))
    by (vm_compute; reflexivity).
  split; [exact H|].
  apply (proj1 (proj2 (proj2 (valid_response_carries_expiry licenses alice_request
                                (noon + 1) (noon + 1) _ H))));
    reflexivity.
Defined.

(** ** Loading the roster *)

(** [load_licenses] reads the roster from first to last: an item replaces
    any earlier item of the same name, an item without a name goes under
    the empty name, an item without a validation time gets zero, and every
    record starts free and without expiry.  An empty roster gives an empty
    table. *)
Theorem load_licenses_last_item_wins (payload : list (option string * option Z))
    (item : option string * option Z) (name : string) :
  Server.load_licenses [] !! name = None
  /\ Server.load_licenses (payload ++ [item]) !! name
     = if decide (default EmptyString (fst item) = name)
       then Some (Server.LicenseInfo.mk name (default 0 (snd item)) None false)
       else Server.load_licenses payload !! name.
Proof.
  split; [apply lookup_empty|].
  unfold Server.load_licenses. rewrite fold_left_app. cbn [fold_left].
  destruct (decide (default EmptyString (fst item) = name)) as [Heq|Hne].
  - rewrite Heq, lookup_insert_eq. reflexivity.
  - rewrite lookup_insert_ne by exact Hne. reflexivity.
Qed.

(** ** A record in use with no expiry *)

Lemma step_keeps_lease_without_expiry st ev name license_info :
  fst st !! name = Some license_info ->
  Server.LicenseInfo.is_used license_info = true ->
  Server.LicenseInfo.expiry_time license_info = None ->
  fst (Server.step st ev) !! name = Some license_info.
Proof.
  intros Hin Hused He.
  destruct ev as [[rname rkey] now_check now_issue | now].
  - rewrite fst_step_handle. unfold Server.handle_request.
    cbn [Server.Request.license_user_name Server.Request.license_key].
    destruct (fst st !! rname) as [held|] eqn:Hr; [|exact Hin].
    destruct (negb _); [exact Hin|].
    destruct (decide (rname = name)) as [->|Hne].
    + rewrite Hin in Hr. injection Hr as <-.
      rewrite Hused, He. cbn [negb orb]. exact Hin.
    + destruct (_ || _); [|exact Hin].
      destruct (add_seconds now_issue _); cbn [fst];
        rewrite lookup_insert_ne by exact Hne; exact Hin.
  - cbn [Server.step fst]. unfold Server.schedule_license_expiry_check.
    rewrite lookup_fmap, Hin. cbn. f_equal.
    unfold Server.expiry_check_one. rewrite He. reflexivity.
Qed.

(** A record that is in use with no expiry, as an issue whose sum raised
    leaves it, stays so for good: no handled request and no reclaimer pass
    changes it, at whatever clock values; every request with the right key
    is answered ["License already in use"] with a null expiry; and the
    [print] command shows the licence with ["Time left: Unlimited"]. *)
Theorem lease_without_expiry_is_kept (evs : list Server.event) (st : Server.run_state)
    name license_info :
  fst st !! name = Some license_info ->
  Server.LicenseInfo.is_used license_info = true ->
  Server.LicenseInfo.expiry_time license_info = None ->
  let licenses' := fst (fold_left Server.step evs st) in
  licenses' !! name = Some license_info
  /\ (forall now_check now_issue,
        Server.handle_request licenses'
          (Server.Request.mk name (Server.generate_key name)) now_check now_issue
        = (licenses',
           Return (Server.Response.mk name true "License already in use" None)))
  /\ (forall now, Server.print_licenses licenses' now !! name
                  = Some Server.TimeLeftUnlimited).
Proof.
  intros Hin Hused He licenses'.
  assert (Hkept : licenses' !! name = Some license_info).
  { subst licenses'. revert st Hin.
    induction evs as [|ev evs IH]; intros st Hin; cbn [fold_left]; [exact Hin|].
    apply IH. exact (step_keeps_lease_without_expiry st ev name license_info Hin Hused He). }
  split; [exact Hkept|]. split.
  - intros now_check now_issue. unfold Server.handle_request.
    cbn [Server.Request.license_user_name Server.Request.license_key].
    rewrite Hkept, eqb_generate_key, Hused, He. reflexivity.
  - intros now. unfold Server.print_licenses. rewrite map_lookup_imap, Hkept.
    cbn. unfold Server.print_license. rewrite Hused, He. reflexivity.
Qed.

Lemma lease_without_expiry_is_kept_witness :
  let st := Server.run roster_overflow [Server.Handle alice_request noon noon] in
  let evs := [Server.ExpiryCheck (DateTime.make 9999 12 31 0 0 0 0);
              Server.Handle alice_request (noon + 1) (noon + 1)] in
  fst st !! "alice" = Some (Server.LicenseInfo.mk "alice" 1000000000000 None true)
  /\ fst (fold_left Server.step evs st) !! "alice"
     = Some (Server.LicenseInfo.mk "alice" 1000000000000 None true)
  /\ Server.print_licenses (fst (fold_left Server.step evs st)) (fun _ => noon) !! "alice"
     = Some Server.TimeLeftUnlimited.
Proof.
  intros st evs.
  assert (Hin : fst st !! "alice"
                = Some (Server.LicenseInfo.mk "alice" 1000000000000 None true))
    by (vm_compute; reflexivity).
  destruct (lease_without_expiry_is_kept evs st "alice" _ Hin eq_refl eq_refl)
    as (Hkept & _ & Hprint).
  split; [exact Hin|]. split; [exact Hkept | apply Hprint].
Defined.

(** * The handler thread of the server *)


Lemma handler_run_on_client_request (licenses : gmap string Server.LicenseInfo.t)
    (name key : string) (now_check now_issue : DateTime.datetime) :
  Server.ClientHandler.run licenses
    (Some (JDict [("license_user_name", JStr name); ("license_key", JStr key)]))
    now_check now_issue
  = (fst (Server.handle_request licenses (Server.Request.mk name key) now_check now_issue),
     Server.handle_request_sent licenses (Server.Request.mk name key) now_check now_issue).
Proof. reflexivity. Qed.

(** When what the handler reads from its socket decodes to the document
    of a client request, [request.__dict__] with a name and a key, [run]
    hands that name and key to [handle_request]: it leaves the table
    [handle_request] leaves, and writes the document of its response, or
    nothing when [handle_request] raises. *)
Theorem decoded_client_request_is_handled (licenses : gmap string Server.LicenseInfo.t)
    (received : option json) (name key : string) (now_check now_issue : DateTime.datetime) :
  received = Some (Client.Request.to_dict (Client.Request.mk (Some name) (Some key))) ->
  let outcome :=
    Server.handle_request licenses (Server.Request.mk name key) now_check now_issue in
  Server.ClientHandler.run licenses received now_check now_issue
  = (fst outcome,
     match snd outcome with
     | Return response => [Server.Response.to_dict response]
     | Raise _ => []
     end).
Proof. intros ->. apply handler_run_on_client_request. Qed.

Lemma decoded_client_request_is_handled_witness :
  Server.ClientHandler.run (Server.load_licenses roster_alice)
    (Some (client_request client_alice)) noon noon
  = (<["alice" := alice_leased]> (Server.load_licenses roster_alice),
     [alice_issued_document]).
Proof.
  rewrite (decoded_client_request_is_handled (Server.load_licenses roster_alice)
             (Some (client_request client_alice)) "alice" (Client.generate_key "alice")
             noon noon eq_refl).
  vm_compute. reflexivity.
Defined.




(** A request that lacks a key, or carries one too many, is not answered;
    one whose sum is no datetime is not answered either, and leaves the
    record in use. *)
Example handler_run_malformed :
  Server.ClientHandler.run licenses_leased
    (Some (JDict [("license_user_name", JStr "alice")])) noon noon
  = (licenses_leased, [])
  /\ Server.ClientHandler.run licenses_leased
       (Some (JDict [("license_user_name", JStr "alice");
                     ("license_key", JStr "k"); ("extra", JNull)])) noon noon
     = (licenses_leased, [])
  /\ Server.ClientHandler.run licenses_leased
       (Some (Client.Request.to_dict (Client.Request.mk None None))) noon noon
     = (licenses_leased,
        [JDict [("license_user_name", JNull); ("license_valid", JBool false);
                ("description", JStr "Token not found"); ("expired", JNull)]])
  /\ snd (Server.ClientHandler.run (Server.load_licenses roster_overflow)
            (Some (client_request client_alice)) noon noon) = []
  /\ fst (Server.ClientHandler.run (Server.load_licenses roster_overflow)
            (Some (client_request client_alice)) noon noon) !! "alice"
     = Some (Server.LicenseInfo.mk "alice" 1000000000000 None true).
Proof.
  split; [reflexivity|]. split; [reflexivity|]. split; [reflexivity|].
  split; vm_compute; reflexivity.
Qed.

(** The bytes the pool handler decodes: ASCII goes through, a lone
    continuation byte or a cut sequence does not. *)
Example handle_client_decode :
  length (Server.handle_client [0x53; 0x54; 0x4F; 0x50]) = 1%nat
  /\ length (Server.handle_client [0xC5; 0x82]) = 1%nat
  /\ Server.handle_client [0xFF] = []
  /\ Server.handle_client [0x61; 0xC5] = []
  /\ Server.handle_client [0xED; 0xA0; 0x80] = []
  /\ Server.handle_client [0xC0; 0x80] = []
  /\ Server.handle_client [] = [].
Proof. vm_compute. repeat split. Qed.

(** * Further properties of the client *)

(** ** A client served by this server *)

(** Every document the handler writes has the key [license_user_name],
    so the client decodes none of them. *)
Lemma handler_documents_not_decoded (licenses : gmap string Server.LicenseInfo.t)
    (received : option json) now_check now_issue document :
  In document (snd (Server.ClientHandler.run licenses received now_check now_issue)) ->
  Client.Response.from_kwargs document = Raise TypeError.
Proof.
  unfold Server.ClientHandler.run.
  destruct received as [[ | b | n | s | l | request]|]; try (cbn; contradiction).
  destruct (dict_get "license_user_name" request) as [license_user_name|];
    [|cbn; contradiction].
  destruct (forallb _ request); [|cbn; contradiction].
  destruct (dict_get "license_key" request) as [license_key|]; [|cbn; contradiction].
  unfold Server.ClientHandler.handle_decoded.
  destruct license_user_name as [ | b | n | name | l | d];
    try (cbn; intros [<-|[]]; reflexivity); try (cbn; contradiction).
  destruct license_key as [ | b | n | key | l | d];
    try (destruct (licenses !! name); cbn; intros [<-|[]]; reflexivity).
  cbn [snd]. unfold Server.handle_request_sent.
  destruct (snd (Server.handle_request _ _ _ _)); cbn; [|contradiction].
  intros [<-|[]]. reflexivity.
Qed.

Lemma pool_documents_not_decoded (data : list Z) document :
  In document (Server.handle_client data) ->
  Client.Response.from_kwargs document = Raise TypeError.
Proof. intros Hin. rewrite (handle_client_reply data document Hin). reflexivity. Qed.

Lemma thread_not_decoded utcoffset (self : Client.LicenseClientAPI.t) document e now :
  Client.Response.from_kwargs document = Raise e ->
  Client.LicenseClientAPI._request_license_token_thread utcoffset self
    (Client.Reply document) now
  = Client.LicenseClientAPI.set_current_token self
      (Some (Client.LicenseClientAPI.failure "Connection error")).
Proof.
  intros Hdec. cbn [Client.LicenseClientAPI._request_license_token_thread].
  rewrite Hdec. reflexivity.
Qed.

(** Whenever the request thread of a client gets to decode a document
    that [ClientHandler.run] has written, whatever request the handler had
    read, the thread ends with ["Connection error"] in the cache and
    nothing scheduled, and the next [get_license_token] returns [None] and
    starts no request.  This is so even when the server, having read the
    request of this very client, has taken its record: the record of the
    holder is then in use while the client holds a failure.  A document
    written by [handle_client] is read the same way. *)
Theorem handler_reply_ends_in_connection_error (utcoffset : DateTime.datetime -> Z)
    (licenses : gmap string Server.LicenseInfo.t) (self : Client.LicenseClientAPI.t)
    (now_check now_issue : DateTime.datetime) (now later : Z) :
  let refused document :=
    let self' :=
      Client.LicenseClientAPI._request_license_token_thread utcoffset self
        (Client.Reply document) now in
    self' = Client.LicenseClientAPI.set_current_token self
              (Some (Client.LicenseClientAPI.failure "Connection error"))
    /\ Client.LicenseClientAPI.get_license_token utcoffset self' later = (self', None) in
  (forall received document,
     In document (snd (Server.ClientHandler.run licenses received now_check now_issue)) ->
     refused document)
  /\ (forall data document, In document (Server.handle_client data) -> refused document)
  /\ (forall name license_info,
        Client.LicenseClientAPI.license_user_name self = Some name ->
        Client.LicenseClientAPI.license_key self = Some (Client.generate_key name) ->
        licenses !! name = Some license_info ->
        Server.LicenseInfo.is_used license_info = false ->
        exists license_info',
          fst (Server.ClientHandler.run licenses (Some (client_request self))
                 now_check now_issue) !! name = Some license_info'
          /\ Server.LicenseInfo.is_used license_info' = true).
Proof.
  intros refused.
  assert (Href : forall document,
            Client.Response.from_kwargs document = Raise TypeError -> refused document).
  { intros document Hdec. unfold refused. cbv zeta.
    rewrite (thread_not_decoded utcoffset self document TypeError now Hdec).
    split; reflexivity. }
  split; [|split].
  - intros received document Hin.
    apply Href, (handler_documents_not_decoded licenses received now_check now_issue), Hin.
  - intros data document Hin. apply Href, (pool_documents_not_decoded data), Hin.
  - intros name license_info Hname Hkey Hin Hfree.
    unfold client_request. rewrite Hname, Hkey.
    change (Client.Request.to_dict (Client.Request.mk (Some name)
              (Some (Client.generate_key name))))
      with (JDict [("license_user_name", JStr name);
                   ("license_key", JStr (Client.generate_key name))]).
    rewrite handler_run_on_client_request. cbn [fst].
    change (Client.generate_key name) with (Server.generate_key name).
    destruct (add_seconds now_issue (Server.LicenseInfo.validation_time license_info))
      as [expiry|e] eqn:Hsum.
    + rewrite (handle_request_issue licenses name license_info Hin now_check now_issue
                 expiry (or_introl Hfree) Hsum).
      cbn [fst]. eexists. rewrite lookup_insert_eq. split; reflexivity.
    + rewrite (handle_request_raises licenses name license_info Hin now_check now_issue
                 e (or_introl Hfree) Hsum).
      cbn [fst]. eexists. rewrite lookup_insert_eq. split; reflexivity.
Qed.

Lemma handler_reply_ends_in_connection_error_witness :
  Client.LicenseClientAPI.current_token
    (Client.LicenseClientAPI._request_license_token_thread utc client_alice
       (Client.Reply alice_issued_document) noon)
  = Some (Client.LicenseClientAPI.failure "Connection error")
  /\ exists license_info',
       fst (Server.ClientHandler.run (Server.load_licenses roster_alice)
              (Some (client_request client_alice)) noon noon) !! "alice"
       = Some license_info'
       /\ Server.LicenseInfo.is_used license_info' = true.
Proof.
  destruct (handler_reply_ends_in_connection_error utc (Server.load_licenses roster_alice)
              client_alice noon noon noon noon) as (Hreply & _ & Hlease).
  split.
  - destruct (Hreply (Some (client_request client_alice)) alice_issued_document) as [Hself _].
    + vm_compute. left. reflexivity.
    + rewrite Hself. reflexivity.
  - apply (Hlease "alice" alice_info); reflexivity.
Defined.

(** ** The token a request thread leaves *)

Lemma thread_shape utcoffset (self : Client.LicenseClientAPI.t) rt now :
  exists token added,
    Client.LicenseClientAPI._request_license_token_thread utcoffset self rt now
    = Client.LicenseClientAPI.set_scheduler
        (Client.LicenseClientAPI.set_current_token self (Some token))
        (app (Client.LicenseClientAPI.scheduler self) added)
    /\ Client.Response.expired token = None
    /\ (added = []
        \/ added = [Sched.mkEvent (Client.Response.minus_one - now) 1
                      Sched.RequestLicenseToken]
           /\ truthy (Client.Response.license_valid token) = true).
Proof.
  assert (Hfail : forall d,
    exists token added,
      Client.LicenseClientAPI.set_current_token self
        (Some (Client.LicenseClientAPI.failure d))
      = Client.LicenseClientAPI.set_scheduler
          (Client.LicenseClientAPI.set_current_token self (Some token))
          (app (Client.LicenseClientAPI.scheduler self) added)
      /\ Client.Response.expired token = None
      /\ (added = []
          \/ added = [Sched.mkEvent (Client.Response.minus_one - now) 1
                        Sched.RequestLicenseToken]
             /\ truthy (Client.Response.license_valid token) = true)).
  { intros d. exists (Client.LicenseClientAPI.failure d), [].
    unfold Client.LicenseClientAPI.set_scheduler, Client.LicenseClientAPI.set_current_token.
    cbn. rewrite app_nil_r. auto. }
  destruct rt as [ | errno | | | | document];
    cbn [Client.LicenseClientAPI._request_license_token_thread]; try apply Hfail.
  - destruct (errno =? 10054); apply Hfail.
  - destruct (Client.Response.from_kwargs document) as [token|e] eqn:Hdec; [|apply Hfail].
    pose proof (from_kwargs_expired document token Hdec) as Hexp.
    unfold Client.LicenseClientAPI.update_token, Client.Response.is_license_valid.
    destruct (truthy (Client.Response.license_valid token)) eqn:Hv.
    + exists token, [Sched.mkEvent (Client.Response.minus_one - now) 1
                       Sched.RequestLicenseToken].
      split; [|split; [exact Hexp | right; auto]].
      unfold Client.LicenseClientAPI.schedule_token_renewal, Sched.enter,
        Client.Response.get_expiry_time.
      rewrite Hexp. reflexivity.
    + exists token, []. split; [|split; [exact Hexp | left; reflexivity]].
      unfold Client.LicenseClientAPI.set_scheduler,
        Client.LicenseClientAPI.set_current_token.
      cbn. rewrite app_nil_r. reflexivity.
Qed.

(** After a request thread has ended, however its round trip went, the
    cache holds a token without expiry, which [is_valid] rejects at any
    time: every later [get_license_token] either refuses or starts one
    more request, and never finds the cached token fresh. *)
Theorem fetched_token_is_never_valid (utcoffset : DateTime.datetime -> Z)
    (self : Client.LicenseClientAPI.t) (rt : Client.round_trip) (now later : Z) :
  Client.Response.minus_one <= later ->
  let self' := Client.LicenseClientAPI._request_license_token_thread utcoffset self rt now in
  exists token,
    Client.LicenseClientAPI.current_token self' = Some token
    /\ Client.Response.expired token = None
    /\ Client.Response.is_valid utcoffset token later = false
    /\ (Client.LicenseClientAPI.get_license_token utcoffset self' later = (self', None)
        \/ Client.LicenseClientAPI.get_license_token utcoffset self' later
           = (Client.LicenseClientAPI.request_license_token self', Some token)).
Proof.
  intros Hlater self'.
  destruct (thread_shape utcoffset self rt now) as (token & added & Hrun & Hexp & _).
  assert (Hinvalid : Client.Response.is_valid utcoffset token later = false).
  { unfold Client.Response.is_valid, Client.Response.get_expiry_time.
    rewrite Hexp. apply Z.ltb_ge. exact Hlater. }
  exists token. subst self'. rewrite Hrun.
  split; [reflexivity|]. split; [exact Hexp|]. split; [exact Hinvalid|].
  unfold Client.LicenseClientAPI.get_license_token.
  cbn [Client.LicenseClientAPI.current_token Client.LicenseClientAPI.set_scheduler
       Client.LicenseClientAPI.set_current_token].
  destruct (_ || _); [left; reflexivity|].
  rewrite Hinvalid. right. reflexivity.
Qed.

Lemma fetched_token_is_never_valid_witness :
  exists token,
    Client.LicenseClientAPI.current_token
      (Client.LicenseClientAPI._request_license_token_thread utc client_alice
         (Client.Reply (JDict [("license_valid", JBool true);
                               ("description", JStr "License issued");
                               ("expired", JNull)])) noon)
    = Some token
    /\ Client.Response.is_valid utc token (noon + 1) = false.
Proof.
  destruct (fetched_token_is_never_valid utc client_alice
              (Client.Reply (JDict [("license_valid", JBool true);
                                    ("description", JStr "License issued");
                                    ("expired", JNull)])) noon (noon + 1))
    as (token & Htok & _ & Hinv & _).
  - vm_compute. discriminate.
  - exists token. split; [exact Htok | exact Hinv].
Defined.

(** The only reply the client decodes as a success has a null expiry;
    the thread then caches it and enters one renewal whose delay is
    [-1 - now]: the renewal is due at once, not at the end of a lease. *)
Theorem decoded_success_renews_at_once (utcoffset : DateTime.datetime -> Z)
    (self : Client.LicenseClientAPI.t) (document : json) (token : Client.Response.t)
    (now : Z) :
  Client.Response.from_kwargs document = Return token ->
  truthy (Client.Response.license_valid token) = true ->
  Client.LicenseClientAPI._request_license_token_thread utcoffset self
    (Client.Reply document) now
  = Client.LicenseClientAPI.set_scheduler
      (Client.LicenseClientAPI.set_current_token self (Some token))
      (app (Client.LicenseClientAPI.scheduler self)
           [Sched.mkEvent (Client.Response.minus_one - now) 1 Sched.RequestLicenseToken])
  /\ (Client.Response.minus_one < now -> Client.Response.minus_one - now < 0).
Proof.
  intros Hdec Hv. split; [|lia].
  pose proof (from_kwargs_expired document token Hdec) as Hexp.
  cbn [Client.LicenseClientAPI._request_license_token_thread]. rewrite Hdec.
  unfold Client.LicenseClientAPI.update_token, Client.Response.is_license_valid.
  rewrite Hv.
  unfold Client.LicenseClientAPI.schedule_token_renewal, Sched.enter,
    Client.Response.get_expiry_time.
  rewrite Hexp. reflexivity.
Qed.

Lemma decoded_success_renews_at_once_witness :
  Client.LicenseClientAPI.scheduler
    (Client.LicenseClientAPI._request_license_token_thread utc client_alice
       (Client.Reply (JDict [("expired", JNull); ("license_valid", JBool true);
                             ("description", JStr "License issued")])) noon)
  = [Sched.mkEvent (Client.Response.minus_one - noon) 1 Sched.RequestLicenseToken].
Proof.
  rewrite (proj1 (decoded_success_renews_at_once utc client_alice
             (JDict [("expired", JNull); ("license_valid", JBool true);
                     ("description", JStr "License issued")])
             (Client.Response.mk (JBool true) (JStr "License issued") None) noon
             eq_refl eq_refl)).
  reflexivity.
Defined.

(** ** The renewals of a client *)

Lemma client_exec_scheduler utcoffset (self : Client.LicenseClientAPI.t) (c : client_call) :
  exists added,
    Client.LicenseClientAPI.scheduler (client_exec utcoffset self c)
    = app (Client.LicenseClientAPI.scheduler self) added
    /\ (length added <= 1)%nat
    /\ Forall (fun ev => Sched.priority ev = 1 /\ Sched.act ev = Sched.RequestLicenseToken)
         added.
Proof.
  assert (Hsame : forall self' : Client.LicenseClientAPI.t,
    Client.LicenseClientAPI.scheduler self' = Client.LicenseClientAPI.scheduler self ->
    exists added,
      Client.LicenseClientAPI.scheduler self'
      = app (Client.LicenseClientAPI.scheduler self) added
      /\ (length added <= 1)%nat
      /\ Forall (fun ev => Sched.priority ev = 1 /\ Sched.act ev = Sched.RequestLicenseToken)
           added).
  { intros self' Hs. exists []. rewrite app_nil_r. split; [exact Hs|]. split; [cbn; lia|].
    constructor. }
  destruct c as [a p | n k | now | new_token now | | rt now | connected];
    cbn [client_exec]; try (apply Hsame; reflexivity).
  - unfold Client.LicenseClientAPI.get_license_token.
    destruct (match Client.LicenseClientAPI.current_token self with
              | Some _ => _ | None => false end); [apply Hsame; reflexivity|].
    destruct (match Client.LicenseClientAPI.current_token self with
              | Some _ => _ | None => true end); apply Hsame; reflexivity.
  - unfold Client.LicenseClientAPI.update_token.
    destruct new_token as [token|]; [|apply Hsame; reflexivity].
    destruct (truthy _); [|apply Hsame; reflexivity].
    eexists [_]. split; [reflexivity|]. split; [cbn; lia|].
    repeat constructor.
  - unfold Client.LicenseClientAPI.thread_run.
    destruct (thread_shape utcoffset self rt now) as (token & added & Hrun & _ & Hadded).
    rewrite Hrun. exists added. split; [reflexivity|].
    destruct Hadded as [-> | [-> _]]; (split; [cbn; lia | repeat constructor]).
Qed.

(** No call on the client takes a renewal off the scheduler.  Read as a
    multiset, the queue after any sequence of calls and thread ends holds
    every event it held before, as many times, together with the events
    entered since: at most one per step, each of priority 1 and with
    [request_license_token] as its action.  In particular [stop] cancels
    nothing. *)
Theorem scheduler_never_loses_an_event (utcoffset : DateTime.datetime -> Z)
    (calls : list client_call) (self : Client.LicenseClientAPI.t) :
  exists added,
    Permutation
      (Client.LicenseClientAPI.scheduler (fold_left (client_exec utcoffset) calls self))
      (app (Client.LicenseClientAPI.scheduler self) added)
    /\ (length added <= length calls)%nat
    /\ Forall (fun ev => Sched.priority ev = 1 /\ Sched.act ev = Sched.RequestLicenseToken)
         added
    /\ (forall ev,
          In ev (Client.LicenseClientAPI.scheduler self) ->
          In ev (Client.LicenseClientAPI.scheduler
                   (fold_left (client_exec utcoffset) calls self))).
Proof.
  assert (Hgen : forall self : Client.LicenseClientAPI.t,
    exists added,
      Client.LicenseClientAPI.scheduler (fold_left (client_exec utcoffset) calls self)
      = app (Client.LicenseClientAPI.scheduler self) added
      /\ (length added <= length calls)%nat
      /\ Forall (fun ev => Sched.priority ev = 1 /\ Sched.act ev = Sched.RequestLicenseToken)
           added).
  { induction calls as [|c calls IH]; intros start; cbn [fold_left].
    - exists []. rewrite app_nil_r. split; [reflexivity|]. split; [cbn; lia | constructor].
    - destruct (client_exec_scheduler utcoffset start c) as (a1 & H1 & L1 & F1).
      destruct (IH (client_exec utcoffset start c)) as (a2 & H2 & L2 & F2).
      exists (app a1 a2). rewrite H2, H1, <- app_assoc.
      split; [reflexivity|]. split.
      + rewrite length_app. cbn [length]. lia.
      + apply Forall_app. auto. }
  destruct (Hgen self) as (added & Heq & Hlen & Hall).
  exists added. rewrite Heq. split; [reflexivity|]. split; [exact Hlen|].
  split; [exact Hall|].
  intros ev Hin. apply in_or_app. left. exact Hin.
Qed.

(** ** Expiries on a whole second *)

Lemma drop_last_of_list (l : list ascii) :
  Client.Response.drop_last (string_of_list_ascii l)
  = string_of_list_ascii (removelast l).
Proof.
  unfold Client.Response.drop_last. rewrite list_ascii_of_string_of_list_ascii. reflexivity.
Qed.

(** No text of eighteen characters whose last one stands alone after the
    seconds' colon is a date and time. *)
Lemma fromisoformat_one_digit_second
    (y1 y2 y3 y4 s1 m1 m2 s2 d1 d2 s3 h1 h2 s4 n1 n2 s5 c : ascii) :
  DateTime.fromisoformat
    (string_of_list_ascii
       [y1; y2; y3; y4; s1; m1; m2; s2; d1; d2; s3; h1; h2; s4; n1; n2; s5; c])
  = None.
Proof.
  unfold DateTime.fromisoformat. rewrite list_ascii_of_string_of_list_ascii.
  cbn [DateTime.parse_digits].
  destruct (DateTime.digit_val y1); [|reflexivity].
  destruct (DateTime.digit_val y2); [|reflexivity].
  destruct (DateTime.digit_val y3); [|reflexivity].
  destruct (DateTime.digit_val y4); [|reflexivity].
  cbn [mbind option_bind DateTime.expect].
  destruct (Ascii.eqb "-" s1); [|reflexivity].
  cbn [mbind option_bind DateTime.parse_digits].
  destruct (DateTime.digit_val m1); [|reflexivity].
  destruct (DateTime.digit_val m2); [|reflexivity].
  cbn [mbind option_bind DateTime.expect].
  destruct (Ascii.eqb "-" s2); [|reflexivity].
  cbn [mbind option_bind DateTime.parse_digits].
  destruct (DateTime.digit_val d1); [|reflexivity].
  destruct (DateTime.digit_val d2); [|reflexivity].
  cbn [mbind option_bind].
  destruct (negb _); [reflexivity|].
  unfold DateTime.parse_time. cbn [DateTime.parse_digits].
  destruct (DateTime.digit_val h1); [|reflexivity].
  destruct (DateTime.digit_val h2); [|reflexivity].
  cbn [mbind option_bind].
  destruct (negb _); [reflexivity|].
  cbn [DateTime.expect].
  destruct (Ascii.eqb ":" s4); [|reflexivity].
  cbn [mbind option_bind DateTime.parse_digits].
  destruct (DateTime.digit_val n1); [|reflexivity].
  destruct (DateTime.digit_val n2); [|reflexivity].
  cbn [mbind option_bind].
  destruct (negb _); [reflexivity|].
  cbn [DateTime.expect].
  destruct (Ascii.eqb ":" s5); [|reflexivity].
  cbn [mbind option_bind DateTime.parse_digits].
  destruct (DateTime.digit_val c); reflexivity.
Qed.

Lemma whole_second_text (dt : DateTime.datetime) :
  dt mod DateTime.us_per_second = 0 ->
  DateTime.fromisoformat (Client.Response.drop_last (DateTime.isoformat dt)) = None.
Proof.
  intros Hus. unfold DateTime.isoformat.
  destruct (DateTime.civil_from_days (dt / DateTime.us_per_day)) as [[y m] d].
  assert (Hz : (dt mod DateTime.us_per_day) mod DateTime.us_per_second = 0).
  { rewrite <- Hus. apply Z.mod_mod_divide. exists 86400. reflexivity. }
  rewrite Hz. cbn [Z.eqb].
  cbn [DateTime.zfill app]. rewrite drop_last_of_list. cbn [removelast].
  apply fromisoformat_one_digit_second.
Qed.

(** A token built with an expiry on a whole second is never valid:
    [isoformat] prints such an expiry without fraction, [get_expiry_time]
    cuts the last digit of the seconds off, what is left does not parse,
    and the expiry read back is [-1]. *)
Theorem whole_second_expiry_is_never_valid (utcoffset : DateTime.datetime -> Z)
    (license_valid description : json) (expiry : DateTime.datetime) (now : Z) :
  expiry mod DateTime.us_per_second = 0 ->
  let token := Client.Response.init license_valid description (Some expiry) in
  Client.Response.get_expiry_time utcoffset token = Client.Response.minus_one
  /\ (Client.Response.minus_one <= now ->
      Client.Response.is_valid utcoffset token now = false).
Proof.
  intros Hus token.
  assert (Hget : Client.Response.get_expiry_time utcoffset token = Client.Response.minus_one).
  { unfold Client.Response.get_expiry_time, token, Client.Response.init.
    cbn [Client.Response.expired fmap option_fmap option_map].
    destruct (String.eqb _ _); [reflexivity|].
    rewrite (whole_second_text expiry Hus). reflexivity. }
  split; [exact Hget|].
  intros Hnow. unfold Client.Response.is_valid. rewrite Hget.
  apply Z.ltb_ge. exact Hnow.
Qed.

Lemma whole_second_expiry_witness :
  Client.Response.get_expiry_time utc token_whole_second = Client.Response.minus_one
  /\ (Client.Response.minus_one <= noon ->
      Client.Response.is_valid utc token_whole_second noon = false).
Proof.
  apply (whole_second_expiry_is_never_valid utc (JBool true) (JStr "License issued")
           (DateTime.make 2030 1 1 0 0 0 0) noon).
  vm_compute. reflexivity.
Defined.

(** * Keys and re-issue *)

Lemma hexdigit_lower_hex (n : Z) :
  In (MD5.hexdigit n) (list_ascii_of_string "0123456789abcdef").
Proof.
  unfold MD5.hexdigit.
  destruct (nth_in_or_default (Z.to_nat n) (list_ascii_of_string "0123456789abcdef")
              "0"%char) as [Hin | ->].
  - exact Hin.
  - left. reflexivity.
Qed.

Lemma hex_lower_hex (bs : list Z) :
  Forall (fun c => In c (list_ascii_of_string "0123456789abcdef"))
         (list_ascii_of_string (MD5.hex bs)).
Proof.
  induction bs as [|b bs IH]; cbn [MD5.hex list_ascii_of_string]; [constructor|].
  constructor; [apply hexdigit_lower_hex|].
  constructor; [apply hexdigit_lower_hex | exact IH].
Qed.

(** A generated key is 32 characters among [0-9a-f], so for a rostered
    holder every key of another length, or with a character outside that
    alphabet (an upper-case digest, say), is answered ["Invalid key"] and
    changes nothing. *)
Theorem key_of_other_shape_is_rejected (licenses : gmap string Server.LicenseInfo.t)
    (name key : string) (license_info : Server.LicenseInfo.t)
    (now_check now_issue : DateTime.datetime) :
  licenses !! name = Some license_info ->
  String.length key <> 32%nat
  \/ Exists (fun c => ~ In c (list_ascii_of_string "0123456789abcdef"))
            (list_ascii_of_string key) ->
  Server.handle_request licenses (Server.Request.mk name key) now_check now_issue
  = (licenses, Return (Server.Response.mk name false "Invalid key" None)).
Proof.
  intros Hin Hshape. apply (handle_request_wrong_key licenses name license_info Hin).
  apply String.eqb_neq. intros Heq. destruct Hshape as [Hlen | Hchar].
  - apply Hlen. rewrite <- Heq. apply generate_key_length.
  - rewrite <- Heq in Hchar. apply Exists_exists in Hchar as (c & Hc & Hnot).
    apply Hnot.
    pose proof (hex_lower_hex (MD5.digest (encode_utf8 name))) as Hall.
    rewrite Forall_forall in Hall. apply Hall. exact Hc.
Qed.

Lemma key_of_other_shape_witness :
  Server.handle_request (Server.load_licenses roster_alice)
    (Server.Request.mk "alice" "6384E2B2184BCBF58ECCF10CA7A6563C") noon noon
  = (Server.load_licenses roster_alice,
     Return (Server.Response.mk "alice" false "Invalid key" None)).
Proof.
  apply (key_of_other_shape_is_rejected _ "alice" _ alice_info noon noon
           roster_alice_lookup).
  right. apply Exists_cons_tl, Exists_cons_tl, Exists_cons_tl, Exists_cons_tl, Exists_cons_hd.
  cbn. intros H. repeat (destruct H as [H|H]; [discriminate H|]). exact H.
Defined.

(** Once the expiry of a lease has passed and a reclaimer pass has run,
    the next request of the holder with the right key is issued afresh,
    with the expiry counted from the clock of the new issue, whatever the
    clock its condition is decided on, provided that the sum of that clock
    and the validation time is a datetime. *)
Theorem reissue_after_reclaim (licenses : gmap string Server.LicenseInfo.t)
    (name : string) (license_info : Server.LicenseInfo.t)
    (expiry_time t now_check now_issue expiry : DateTime.datetime) :
  licenses !! name = Some license_info ->
  Server.LicenseInfo.is_used license_info = true ->
  Server.LicenseInfo.expiry_time license_info = Some expiry_time ->
  expiry_time < t ->
  Server.calculate_expiry_date (Server.LicenseInfo.validation_time license_info) now_issue
  = Return expiry ->
  let reclaimed := Server.schedule_license_expiry_check licenses t in
  (exists freed,
     reclaimed !! name = Some freed /\ Server.LicenseInfo.is_used freed = false)
  /\ expiry = now_issue
              + DateTime.timedelta_seconds (Server.LicenseInfo.validation_time license_info)
  /\ snd (Server.handle_request reclaimed
            (Server.Request.mk name (Server.generate_key name)) now_check now_issue)
     = Return (Server.Response.mk name true "License issued"
                 (Some (DateTime.isoformat expiry)))
  /\ fst (Server.handle_request reclaimed
            (Server.Request.mk name (Server.generate_key name)) now_check now_issue)
       !! name
     = Some (Server.LicenseInfo.mk (Server.LicenseInfo.license_user_name license_info)
               (Server.LicenseInfo.validation_time license_info) (Some expiry) true).
Proof.
  intros Hin Hused He Hlt Hsum reclaimed. unfold Server.calculate_expiry_date in Hsum.
  assert (Hfreed : reclaimed !! name
                   = Some (Server.LicenseInfo.mk
                             (Server.LicenseInfo.license_user_name license_info)
                             (Server.LicenseInfo.validation_time license_info)
                             (Some expiry_time) false)).
  { unfold reclaimed, Server.schedule_license_expiry_check.
    rewrite lookup_fmap, Hin. cbn. f_equal. unfold Server.expiry_check_one.
    rewrite He, Hused. apply Z.ltb_lt in Hlt. rewrite Hlt. reflexivity. }
  split; [eexists; split; [exact Hfreed | reflexivity]|].
  split; [apply (add_seconds_Return _ _ _ Hsum)|].
  rewrite (handle_request_issue reclaimed name _ Hfreed now_check now_issue expiry
             (or_introl eq_refl) Hsum).
  cbn. split; [reflexivity|]. apply lookup_insert_eq.
Qed.

Lemma reissue_after_reclaim_witness :
  snd (Server.handle_request
         (Server.schedule_license_expiry_check licenses_leased
            (DateTime.make 2026 11 3 12 0 10 0))
         alice_request (DateTime.make 2026 11 3 12 0 11 0) (DateTime.make 2026 11 3 12 0 11 0))
  = Return (Server.Response.mk "alice" true "License issued" (Some "2026-11-03T12:00:16")).
Proof.
  apply (reissue_after_reclaim licenses_leased "alice" alice_leased
           (DateTime.make 2026 11 3 12 0 5 0) (DateTime.make 2026 11 3 12 0 10 0)
           (DateTime.make 2026 11 3 12 0 11 0) (DateTime.make 2026 11 3 12 0 11 0)
           (DateTime.make 2026 11 3 12 0 16 0)).
  - exact licenses_leased_lookup.
  - reflexivity.
  - reflexivity.
  - vm_compute. reflexivity.
  - vm_compute. reflexivity.
Defined.

(** * What the client program reports *)

Lemma served_thread utcoffset (self : Client.LicenseClientAPI.t) rt now :
  served rt ->
  exists description,
    Client.LicenseClientAPI._request_license_token_thread utcoffset self rt now
    = Client.LicenseClientAPI.set_current_token self
        (Some (Client.LicenseClientAPI.failure description)).
Proof.
  intros Hs. destruct Hs as [ | errno | | | | licenses received n1 n2 document Hin
                            | data document Hin];
    cbn [Client.LicenseClientAPI._request_license_token_thread].
  - eauto.
  - destruct (errno =? 10054); eauto.
  - eauto.
  - eauto.
  - eauto.
  - rewrite (handler_documents_not_decoded licenses received n1 n2 document Hin). eauto.
  - rewrite (pool_documents_not_decoded data document Hin). eauto.
Qed.

Lemma main_step_holds_no_success utcoffset (self : Client.LicenseClientAPI.t) c :
  main_step c -> holds_no_success self -> holds_no_success (client_exec utcoffset self c).
Proof.
  intros Hc Hinv.
  destruct c as [a p | n k | now | new_token now | | rt now | connected];
    cbn [client_exec main_step] in *; try exact Hinv; try contradiction.
  - unfold Client.LicenseClientAPI.get_license_token.
    destruct (match Client.LicenseClientAPI.current_token self with
              | Some _ => _ | None => false end); [exact Hinv|].
    destruct (match Client.LicenseClientAPI.current_token self with
              | Some _ => _ | None => true end); exact Hinv.
  - unfold Client.LicenseClientAPI.thread_run.
    destruct (served_thread utcoffset self rt now Hc) as [d Hrun]. rewrite Hrun.
    right. exists d. reflexivity.
Qed.

(** A client driven by [main] against this server never prints
    ["Valid: true"]: whatever it calls among [start], [set_license],
    [get_license_token] and [stop], and however the round trips of its
    request threads with the server go, its cache is empty or holds a
    synthetic failure, and [gettoken] reports [false]. *)
Theorem gettoken_never_reports_valid (utcoffset : DateTime.datetime -> Z)
    (calls : list client_call) (now : Z) :
  Forall main_step calls ->
  let self := fold_left (client_exec utcoffset) calls Client.LicenseClientAPI.init in
  holds_no_success self
  /\ snd (main_gettoken utcoffset self now) = false.
Proof.
  intros Hcalls self.
  assert (Hinv : holds_no_success self).
  { subst self.
    assert (Hgen : forall start, holds_no_success start ->
              holds_no_success (fold_left (client_exec utcoffset) calls start)).
    { induction Hcalls as [|c calls Hc _ IH]; intros start Hstart; cbn [fold_left];
        [exact Hstart|].
      apply IH, main_step_holds_no_success; assumption. }
    apply Hgen. left. reflexivity. }
  split; [exact Hinv|].
  clearbody self. destruct self as [k n p a token q th].
  unfold holds_no_success in Hinv. cbn [Client.LicenseClientAPI.current_token] in Hinv.
  unfold main_gettoken, Client.LicenseClientAPI.get_license_token.
  cbn [Client.LicenseClientAPI.current_token].
  destruct Hinv as [-> | [d ->]].
  - reflexivity.
  - cbn [Client.LicenseClientAPI.failure Client.Response.init Client.Response.description].
    destruct (_ || _); [reflexivity|].
    destruct (negb _); reflexivity.
Qed.

Lemma gettoken_never_reports_valid_witness :
  let calls :=
    [CallStart "127.0.0.1" 5000;
     CallSetLicense "alice" (Client.generate_key "alice");
     CallGetLicenseToken noon;
     ThreadEnds (Client.Reply alice_issued_document) noon;
     CallGetLicenseToken (noon + 1)] in
  snd (main_gettoken utc (fold_left (client_exec utc) calls Client.LicenseClientAPI.init)
         (noon + 2)) = false.
Proof.
  intros calls.
  apply (gettoken_never_reports_valid utc calls (noon + 2)).
  apply List.Forall_cons; [exact I|]. apply List.Forall_cons; [exact I|].
  apply List.Forall_cons; [exact I|].
  apply List.Forall_cons; [|apply List.Forall_cons; [exact I | apply List.Forall_nil]].
  apply (served_handler (Server.load_licenses roster_alice)
           (Some (client_request client_alice)) noon noon alice_issued_document).
  vm_compute. left. reflexivity.
Defined.
